(** * Control-plane hub of SeleniumStealthWebTool ([src/server_code.py])

    A shallow embedding of the TCP hub: the fixed-size frame codec
    ([pack_message], [unpack_message]), the message parser, the per-agent
    message handler, the operator command handler, the per-connection
    lifecycle [handle_client], and the client id allocator.

    Python [str] values are lists of Unicode code points ([pystr]);
    Python [bytes] values are lists of 8-bit integers ([list Z], every
    element in [0, 256)). *)

From Stdlib Require Import ZArith Lia String Ascii.
From stdpp Require Import base list gmap strings pretty.

Open Scope Z_scope.

(* ================================================================= *)
(** ** Python strings and bytes *)

(** A Python [str]: its sequence of code points. *)
Abbreviation pystr := (list Z).

(** A Python [bytes]: its sequence of byte values. *)
Abbreviation pybytes := (list Z).

(** String literals of the source, which are all ASCII. *)
Definition lit (s : string) : pystr :=
  map (fun a => Z.of_nat (nat_of_ascii a)) (list_ascii_of_string s).

(** A Unicode scalar value: what [str.encode('utf-8')] accepts
    (lone surrogates raise [UnicodeEncodeError]). *)
Definition is_scalar (c : Z) : bool :=
  (0 <=? c) && (c <? 0x110000) && negb ((0xD800 <=? c) && (c <=? 0xDFFF)).

(** UTF-8 encoding of one scalar value. *)
Definition utf8_encode_char (c : Z) : pybytes :=
  if c <? 0x80 then [c]
  else if c <? 0x800 then
    [0xC0 + c / 64; 0x80 + c mod 64]
  else if c <? 0x10000 then
    [0xE0 + c / 4096; 0x80 + (c / 64) mod 64; 0x80 + c mod 64]
  else
    [0xF0 + c / 262144; 0x80 + (c / 4096) mod 64;
     0x80 + (c / 64) mod 64; 0x80 + c mod 64].

(** [msg.encode('utf-8')]: [None] is the [UnicodeEncodeError] raised on a
    code point that is not a scalar value. *)
Fixpoint utf8_encode (s : pystr) : option pybytes :=
  match s with
  | [] => Some []
  | c :: r =>
      if is_scalar c then
        match utf8_encode r with
        | Some bs => Some (utf8_encode_char c ++ bs)
        | None => None
        end
      else None
  end.

(** A continuation byte [10xxxxxx]. *)
Definition is_cont (b : Z) : bool := (0x80 <=? b) && (b <=? 0xBF).

Definition in_range (lo hi b : Z) : bool := (lo <=? b) && (b <=? hi).

(** Range allowed for the second byte of a three-byte sequence
    (Unicode Table 3-7: no overlong forms, no surrogates). *)
Definition second3_ok (b0 b1 : Z) : bool :=
  if b0 =? 0xE0 then in_range 0xA0 0xBF b1
  else if b0 =? 0xED then in_range 0x80 0x9F b1
  else is_cont b1.

(** Range allowed for the second byte of a four-byte sequence
    (no overlong forms, nothing above U+10FFFF). *)
Definition second4_ok (b0 b1 : Z) : bool :=
  if b0 =? 0xF0 then in_range 0x90 0xBF b1
  else if b0 =? 0xF4 then in_range 0x80 0x8F b1
  else is_cont b1.

(** [bytes.decode('utf-8', errors='ignore')].  Where no well-formed
    sequence starts at the current byte, that byte is dropped and decoding
    resumes at the next one.  CPython drops the maximal ill-formed subpart
    at once; the bytes of that subpart after its first are continuation
    bytes, which never start a well-formed sequence, so dropping them one
    at a time gives the same string. *)
Fixpoint utf8_decode_ignore (bs : pybytes) : pystr :=
  match bs with
  | [] => []
  | b0 :: r0 =>
      if (0 <=? b0) && (b0 <? 0x80) then b0 :: utf8_decode_ignore r0
      else if in_range 0xC2 0xDF b0 then
        match r0 with
        | b1 :: r1 =>
            if is_cont b1
            then ((b0 - 0xC0) * 64 + (b1 - 0x80)) :: utf8_decode_ignore r1
            else utf8_decode_ignore r0
        | [] => utf8_decode_ignore r0
        end
      else if in_range 0xE0 0xEF b0 then
        match r0 with
        | b1 :: b2 :: r2 =>
            if second3_ok b0 b1 && is_cont b2
            then ((b0 - 0xE0) * 4096 + (b1 - 0x80) * 64 + (b2 - 0x80))
                   :: utf8_decode_ignore r2
            else utf8_decode_ignore r0
        | _ => utf8_decode_ignore r0
        end
      else if in_range 0xF0 0xF4 b0 then
        match r0 with
        | b1 :: b2 :: b3 :: r3 =>
            if second4_ok b0 b1 && is_cont b2 && is_cont b3
            then ((b0 - 0xF0) * 262144 + (b1 - 0x80) * 4096
                  + (b2 - 0x80) * 64 + (b3 - 0x80))
                   :: utf8_decode_ignore r3
            else utf8_decode_ignore r0
        | _ => utf8_decode_ignore r0
        end
      else utf8_decode_ignore r0
  end.

(** [bytes.ljust(n, b'\0')]: right-pad with NUL bytes up to length [n]. *)
Definition ljust (n : nat) (bs : pybytes) : pybytes :=
  bs ++ replicate (n - length bs) 0.

(** Drop leading NUL bytes. *)
Fixpoint drop_nuls (bs : pybytes) : pybytes :=
  match bs with
  | b :: r => if b =? 0 then drop_nuls r else bs
  | [] => []
  end.

(** [bytes.rstrip(b'\0')]: drop trailing NUL bytes. *)
Definition rstrip_nul (bs : pybytes) : pybytes :=
  reverse (drop_nuls (reverse bs)).

(** The frame size of the protocol. *)
Definition FRAME_SIZE : nat := 1024.

(** [pack_message] (server_code.py, lines 78-83):
    {v
    msg_bytes = msg.encode('utf-8')
    if len(msg_bytes) > 1024:
        msg_bytes = msg_bytes[:1024]
    return msg_bytes.ljust(1024, b'\0')
    v}
    [None] is the [UnicodeEncodeError] of [encode]. *)
Definition pack_message (msg : pystr) : option pybytes :=
  match utf8_encode msg with
  | Some msg_bytes =>
      let msg_bytes :=
        if Nat.ltb FRAME_SIZE (length msg_bytes)
        then take FRAME_SIZE msg_bytes else msg_bytes in
      Some (ljust FRAME_SIZE msg_bytes)
  | None => None
  end.

(** [unpack_message] (lines 86-88):
    [data.rstrip(b'\0').decode('utf-8', errors='ignore')]. *)
Definition unpack_message (data : pybytes) : pystr :=
  utf8_decode_ignore (rstrip_nul data).

(* ================================================================= *)
(** ** Message parsing (lines 91-96) *)

(** [str.split(sep)] for a one-character separator: always at least one
    part. *)
Fixpoint py_split (sep : Z) (s : pystr) : list pystr :=
  match s with
  | [] => [[]]
  | c :: r =>
      if c =? sep then [] :: py_split sep r
      else match py_split sep r with
           | w :: ws => (c :: w) :: ws
           | [] => [[c]]
           end
  end.

(** [sep.join(parts)]. *)
Fixpoint py_join (sep : Z) (parts : list pystr) : pystr :=
  match parts with
  | [] => []
  | [p] => p
  | p :: ps => p ++ sep :: py_join sep ps
  end.

(** The character ['/']. *)
Definition SLASH : Z := 47.

(** [parse_message]:
    {v
    parts = msg.split('/')
    if len(parts) > 0:
        return parts[0], parts[1:]
    return "", []
    v} *)
Definition parse_message (msg : pystr) : pystr * list pystr :=
  match py_split SLASH msg with
  | p :: ps => (p, ps)
  | [] => ([], [])
  end.

(* ================================================================= *)
(** ** Global state (lines 16-72) *)

(** [ClientSession]; the [reader]/[writer] streams are not data of the
    model: what is written to the writer is recorded in [sent] below. *)
Record ClientSession := mkSession {
  client_id : pystr;
  status : pystr;
  bot_id : pystr;
  variables : gmap pystr pystr;
  last_seen : Z;
  logs : list pystr
}.

(** The default [variables] dict of a new session. *)
Definition default_variables : gmap pystr pystr :=
  <[lit "BOT_ID" := lit "NONE"]> (<[lit "TICKET_TEXT" := lit "NONE"]>
  (<[lit "TICKET_CODE" := lit "NONE"]> (<[lit "TICKET_URL" := lit "NONE"]>
  (<[lit "ACCOUNT_EMAIL" := lit "NONE"]>
  (<[lit "ACCOUNT_PASSWORD" := lit "NONE"]> ∅))))).

(** [ClientSession(client_id=..., reader=..., writer=...)] created at time
    [now] ([last_seen] defaults to [time.time()]). *)
Definition new_session (cid : pystr) (now : Z) : ClientSession :=
  mkSession cid (lit "INACTIVE") (lit "NONE") default_variables now [].

(** Python's [l[-n:]]: the last [n] elements (all of them when the list
    is shorter). *)
Definition last_n {A} (n : nat) (l : list A) : list A :=
  drop (length l - n) l.

(** The dict built by [ClientSession.to_dict]. *)
Record SessionView := mkView {
  v_client_id : pystr;
  v_status : pystr;
  v_bot_id : pystr;
  v_variables : gmap pystr pystr;
  v_last_seen : Z;
  v_logs : list pystr
}.

(** [to_dict] (lines 35-44): ["logs": self.logs[-50:]]. *)
Definition to_dict (s : ClientSession) : SessionView :=
  mkView (client_id s) (status s) (bot_id s) (variables s) (last_seen s)
         (last_n 50 (logs s)).

(** The JSON messages sent to the web UI, by their ["event"] field. *)
Inductive UIEvent :=
  | EvClientConnected (client : SessionView)
  | EvClientUpdated (client : SessionView)
  | EvClientDisconnected (cid : pystr)
  | EvClientLog (cid : pystr) (log : pystr)
  | EvServerStatus (st : pystr)
  | EvClientsList (clients : list SessionView)
  | EvTicketMapChanged (ticket_map : gmap pystr pystr).

(** [ServerState], together with the effects on the outside world:
    [ui_events] is the sequence of messages handed to [broadcast_to_ui],
    [ui_replies] the messages sent to the one UI socket that asked, and
    [sent] the frames written to agent sockets, with the agent's id.
    The set of UI sockets and the lock are not modelled: a broadcast is
    recorded once, whatever the set of observers. *)
Record ServerState := mkState {
  clients : gmap pystr ClientSession;
  ticket_code_map : gmap pystr pystr;
  server_status : pystr;
  client_counter : nat;
  ui_events : list UIEvent;
  ui_replies : list UIEvent;
  sent : list (pystr * pybytes)
}.

(** [state = ServerState()]. *)
Definition init_state : ServerState :=
  mkState ∅ ∅ (lit "INACTIVE") 0 [] [] [].

Definition set_clients (m : gmap pystr ClientSession) (st : ServerState) :=
  mkState m (ticket_code_map st) (server_status st) (client_counter st)
          (ui_events st) (ui_replies st) (sent st).

Definition set_ticket_code_map (m : gmap pystr pystr) (st : ServerState) :=
  mkState (clients st) m (server_status st) (client_counter st)
          (ui_events st) (ui_replies st) (sent st).

Definition set_server_status (x : pystr) (st : ServerState) :=
  mkState (clients st) (ticket_code_map st) x (client_counter st)
          (ui_events st) (ui_replies st) (sent st).

(** The decimal digits of [n], as [f"{n}"] prints them. *)
Definition int_str (n : nat) : pystr := lit (pretty n).

(** [f"CLIENT_{k}"]. *)
Definition client_id_str (k : nat) : pystr := lit "CLIENT_" ++ int_str k.

(** [get_next_client_id] (lines 57-59):
    {v
    self._client_counter += 1
    return f"CLIENT_{self._client_counter}"
    v} *)
Definition get_next_client_id (st : ServerState) : pystr * ServerState :=
  let k := S (client_counter st) in
  (client_id_str k,
   mkState (clients st) (ticket_code_map st) (server_status st) k
           (ui_events st) (ui_replies st) (sent st)).

(** [broadcast_to_ui] (lines 61-69): the message goes to every UI socket;
    failing sockets are dropped, nothing is raised. *)
Definition broadcast_to_ui (ev : UIEvent) (st : ServerState) : ServerState :=
  mkState (clients st) (ticket_code_map st) (server_status st)
          (client_counter st) (ui_events st ++ [ev]) (ui_replies st) (sent st).

(** [websocket.send_json(...)] to the requesting UI socket. *)
Definition reply_to_ui (ev : UIEvent) (st : ServerState) : ServerState :=
  mkState (clients st) (ticket_code_map st) (server_status st)
          (client_counter st) (ui_events st) (ui_replies st ++ [ev]) (sent st).

(** [send_to_client] (lines 233-241): [pack_message] then write; an
    exception (here the encode error) is caught and printed. *)
Definition send_to_client (cid : pystr) (msg : pystr) (st : ServerState)
  : ServerState :=
  match pack_message msg with
  | Some packed =>
      mkState (clients st) (ticket_code_map st) (server_status st)
              (client_counter st) (ui_events st) (ui_replies st)
              (sent st ++ [(cid, packed)])
  | None => st
  end.

(** [[client.to_dict() for client in state.clients.values()]]; the order
    of the list is not modelled (Python's dict keeps insertion order). *)
Definition clients_views (st : ServerState) : list SessionView :=
  map (fun kv => to_dict kv.2) (map_to_list (clients st)).

(** [d.get(k, default)]. *)
Definition dict_get (d : gmap pystr pystr) (k default : pystr) : pystr :=
  match d !! k with Some v => v | None => default end.

(** Writes to fields of the (shared) session object. *)
Definition with_status (x : pystr) (s : ClientSession) : ClientSession :=
  mkSession (client_id s) x (bot_id s) (variables s) (last_seen s) (logs s).

Definition with_variable (k v : pystr) (s : ClientSession) : ClientSession :=
  mkSession (client_id s) (status s) (bot_id s) (<[k := v]> (variables s))
            (last_seen s) (logs s).

Definition with_last_seen (t : Z) (s : ClientSession) : ClientSession :=
  mkSession (client_id s) (status s) (bot_id s) (variables s) t (logs s).

(** [session.logs.append(l)]. *)
Definition append_log (l : pystr) (s : ClientSession) : ClientSession :=
  mkSession (client_id s) (status s) (bot_id s) (variables s) (last_seen s)
            (logs s ++ [l]).

(** The session object [s] is the one stored at [state.clients[cid]]:
    writing to it is writing to the registry entry. *)
Definition store_session (cid : pystr) (s : ClientSession) (st : ServerState)
  : ServerState :=
  set_clients (<[cid := s]> (clients st)) st.

(* ================================================================= *)
(** ** Agent messages: [handle_client_message] (lines 164-230) *)

Definition pystr_eqb (a b : pystr) : bool := bool_decide (a = b).

(** [handle_client_message(session, msg)] where [session] is
    [state.clients[cid]]. *)
Definition handle_client_message (st : ServerState) (cid : pystr) (msg : pystr)
  : ServerState :=
  match clients st !! cid with
  | None => st
  | Some session =>
    let '(msg_code, payload) := parse_message msg in
    if pystr_eqb msg_code (lit "CLIENT_STATUS_RESPONSE") then
      match payload with
      | p0 :: _ =>
          let session := with_status p0 session in
          broadcast_to_ui (EvClientUpdated (to_dict session))
                          (store_session cid session st)
      | [] => st
      end
    else if pystr_eqb msg_code (lit "CHECK_VARIABLE_REQUEST") then
      match payload with
      | var_name :: _ =>
          let value :=
            if pystr_eqb var_name (lit "TICKET_CODE") then
              let ticket_text :=
                dict_get (variables session) (lit "TICKET_TEXT") (lit "NONE") in
              dict_get (ticket_code_map st) ticket_text (lit "NONE")
            else dict_get (variables session) var_name (lit "NONE") in
          send_to_client cid (lit "CHECK_VARIABLE_RESPONSE/" ++ value) st
      | [] => st
      end
    else if pystr_eqb msg_code (lit "CHANGE_VARIABLE_RESPONSE") then
      (* [result = payload[0]] is only printed *)
      st
    else if pystr_eqb msg_code (lit "REPORT_CLIENT_ERROR") then
      match payload with
      | _ :: _ =>
          let l := lit "ERROR: " ++ py_join SLASH payload in
          broadcast_to_ui (EvClientLog (client_id session) l)
                          (store_session cid (append_log l session) st)
      | [] => st
      end
    else if pystr_eqb msg_code (lit "REPORT_CLIENT_FINISH") then
      match payload with
      | result :: _ =>
          let l := lit "FINISHED: " ++ result in
          broadcast_to_ui (EvClientLog (client_id session) l)
                          (store_session cid (append_log l session) st)
      | [] => st
      end
    else if pystr_eqb msg_code (lit "LOG_CLIENT_EVENT")
            || pystr_eqb msg_code (lit "CLIENT_LOG_EVENT") then
      match payload with
      | _ :: _ =>
          let l := py_join SLASH payload in
          broadcast_to_ui (EvClientLog (client_id session) l)
                          (store_session cid (append_log l session) st)
      | [] => st
      end
    else st
  end.

(** Handling a sequence of messages from one agent. *)
Fixpoint handle_client_messages (st : ServerState) (cid : pystr)
    (msgs : list pystr) : ServerState :=
  match msgs with
  | [] => st
  | m :: ms => handle_client_messages (handle_client_message st cid m) cid ms
  end.

(* ================================================================= *)
(** ** Operator commands: [handle_ui_command] (lines 684-743) *)

(** The JSON commands of the web UI, by their ["action"] field.  The
    dashboard always sends ["variable"] and ["value"] as strings; for
    [set_ticket_code] a missing field ([data.get] returning [None]) is
    kept as [None]. *)
Inductive UICommand :=
  | UiListClients
  | UiToggleServer
  | UiApplyVariable (cids : list pystr) (var_name var_value : pystr)
  | UiSendLogin (cids : list pystr)
  | UiSendBuy (cids : list pystr)
  | UiSetTicketCode (ticket_text code : option pystr)
  | UiOtherAction.

(** Python truthiness of [data.get(...)]: [None] and [""] are false. *)
Definition py_truthy (o : option pystr) : bool :=
  match o with Some (_ :: _) => true | _ => false end.

(** The loop of the [apply_variable] branch:
    {v
    for client_id in client_ids:
        if client_id in state.clients:
            session = state.clients[client_id]
            session.variables[var_name] = var_value
            msg = f"CHANGE_VARIABLE_REQUEST/{var_name}/{var_value}"
            await send_to_client(session, msg)
    v} *)
Fixpoint apply_variable_loop (cids : list pystr) (var_name var_value : pystr)
    (st : ServerState) : ServerState :=
  match cids with
  | [] => st
  | cid :: rest =>
      let st :=
        match clients st !! cid with
        | Some session =>
            let st := store_session cid (with_variable var_name var_value session) st in
            send_to_client cid
              (lit "CHANGE_VARIABLE_REQUEST/" ++ var_name ++ SLASH :: var_value) st
        | None => st
        end in
      apply_variable_loop rest var_name var_value st
  end.

(** The loops of [send_login] and [send_buy]. *)
Fixpoint send_to_clients (cids : list pystr) (msg : pystr) (st : ServerState)
  : ServerState :=
  match cids with
  | [] => st
  | cid :: rest =>
      let st :=
        match clients st !! cid with
        | Some _ => send_to_client cid msg st
        | None => st
        end in
      send_to_clients rest msg st
  end.

Definition handle_ui_command (st : ServerState) (data : UICommand) : ServerState :=
  match data with
  | UiListClients => reply_to_ui (EvClientsList (clients_views st)) st
  | UiToggleServer =>
      let x := if pystr_eqb (server_status st) (lit "INACTIVE")
               then lit "ACTIVE" else lit "INACTIVE" in
      let st := set_server_status x st in
      broadcast_to_ui (EvServerStatus (server_status st)) st
  | UiApplyVariable cids var_name var_value =>
      let st := apply_variable_loop cids var_name var_value st in
      broadcast_to_ui (EvClientsList (clients_views st)) st
  | UiSendLogin cids => send_to_clients cids (lit "CLIENT_LOGIN") st
  | UiSendBuy cids => send_to_clients cids (lit "CLIENT_BUY_TICKET") st
  | UiSetTicketCode ticket_text code =>
      match ticket_text, code with
      | Some t, Some c =>
          if py_truthy ticket_text && py_truthy code then
            let st := set_ticket_code_map (<[t := c]> (ticket_code_map st)) st in
            broadcast_to_ui (EvTicketMapChanged (ticket_code_map st)) st
          else st
      | _, _ => st
      end
  | UiOtherAction => st
  end.

(* ================================================================= *)
(** ** Agent connection lifecycle: [handle_client] (lines 103-161) *)

(** How the agent's connection ends, as asyncio reports it.
    - [ClosedByPeer]: end of stream.  [readexactly] raises
      [IncompleteReadError]; the protocol's [connection_lost(None)]
      completes the writer's close future normally.
    - [ConnectionFailed]: a socket error such as a reset by the peer.
      [readexactly] raises that [OSError] (caught by [except Exception]);
      [connection_lost(exc)] sets [exc] on the close future, so
      [await writer.wait_closed()] raises [exc] again. *)
Inductive ConnEnd := ClosedByPeer | ConnectionFailed.

(** Whether [await writer.wait_closed()] raises. *)
Definition wait_closed_raises (e : ConnEnd) : bool :=
  match e with ClosedByPeer => false | ConnectionFailed => true end.

(** The read loop:
    {v
    while True:
        data = await reader.readexactly(1024)
        if not data:
            break
        session.last_seen = time.time()
        msg = unpack_message(data)
        if not msg:
            continue
        await handle_client_message(session, msg)
    v}
    Each frame comes with the time it was read. *)
Fixpoint client_loop (cid : pystr) (frames : list (Z * pybytes))
    (st : ServerState) : ServerState :=
  match frames with
  | [] => st
  | (t, data) :: rest =>
      match data with
      | [] => st
      | _ :: _ =>
          let st :=
            match clients st !! cid with
            | Some session => store_session cid (with_last_seen t session) st
            | None => st
            end in
          let msg := unpack_message data in
          match msg with
          | [] => client_loop cid rest st
          | _ :: _ => client_loop cid rest (handle_client_message st cid msg)
          end
      end
  end.

(** One whole connection: accepted at time [now], then [frames] read,
    then the connection ends as [e].  The [finally] block removes the
    session, closes the writer, awaits [wait_closed] and only then
    broadcasts [client_disconnected]; when [wait_closed] raises, the
    exception leaves [handle_client] before that broadcast. *)
Definition handle_client (st : ServerState) (now : Z)
    (frames : list (Z * pybytes)) (e : ConnEnd) : ServerState :=
  let '(cid, st) := get_next_client_id st in
  let session := new_session cid now in
  let st := store_session cid session st in
  let st := broadcast_to_ui (EvClientConnected (to_dict session)) st in
  let st := client_loop cid frames st in
  let st := set_clients (delete cid (clients st)) st in
  if wait_closed_raises e then st
  else broadcast_to_ui (EvClientDisconnected cid) st.

(** [n] successive calls of [get_next_client_id]. *)
Fixpoint alloc_ids (n : nat) (st : ServerState) : list pystr * ServerState :=
  match n with
  | O => ([], st)
  | S n' =>
      let '(cid, st) := get_next_client_id st in
      let '(ids, st) := alloc_ids n' st in
      (cid :: ids, st)
  end.


(* ================================================================= *)
(** ** The agent side of the protocol ([src/client_code.py], lines 147-204,
    identical in [src/client_protocol.py]) *)

(** The character ['|'], the agent library's field separator. *)
Definition PIPE : Z := 124.

(** [split_message(msg)]: [msg.split("|")], copied into a new list. *)
Definition split_message (msg : pystr) : list pystr := py_split PIPE msg.

(** The messages the agent's helpers put on the [OUTGOING] queue
    ([send_message_no_wait]), which the network thread sends as frames. *)

(** [log_event]: [f"{msg_code}|{log_msg}"]. *)
Definition log_event (log_msg : pystr) : pystr :=
  lit "LOG_CLIENT_EVENT" ++ PIPE :: log_msg.

(** [report_error]: [f"{msg_code}|{err_msg}"]. *)
Definition report_error (err_msg : pystr) : pystr :=
  lit "REPORT_CLIENT_ERROR" ++ PIPE :: err_msg.

(** [report_finished]: [f"{msg_code}|{success}"]. *)
Definition report_finished (success : pystr) : pystr :=
  lit "REPORT_CLIENT_FINISH" ++ PIPE :: success.

(** [respond_to_status_request]: [f"{msg_code}|{response}"]. *)
Definition respond_to_status_request (response : pystr) : pystr :=
  lit "CLIENT_STATUS_RESPONSE" ++ PIPE :: response.

(** [respond_to_variable_change]: the agent's updated [variables] dict
    and the message it sends.
    {v
    variables[variable] = new_value
    success = "FAIL"
    if variables.get(variable) == new_value:
        success = "SUCCESS"
    msg = f"{msg_code}|{success}"
    v} *)
Definition respond_to_variable_change (variable new_value : pystr)
    (variables : gmap pystr pystr) : gmap pystr pystr * pystr :=
  let variables := <[variable := new_value]> variables in
  let success :=
    if bool_decide (variables !! variable = Some new_value)
    then lit "SUCCESS" else lit "FAIL" in
  (variables, lit "CHANGE_VARIABLE_RESPONSE" ++ PIPE :: success).

(** [get_variable(var)]: the request it sends, [f"{msg_code}/{var}"]. *)
Definition get_variable_request (var : pystr) : pystr :=
  lit "CHECK_VARIABLE_REQUEST/" ++ var.

(** [get_variable(var)]: how it reads the reply,
    [temp = raw_response.split("|"); response = temp[1]];
    [None] is the [IndexError] of [temp[1]]. *)
Definition get_variable_response (raw_response : pystr) : option pystr :=
  py_split PIPE raw_response !! 1%nat.

(** The agent's own framing of what it sends ([network_thread]):
    {v
    msg_bytes = msg.encode('utf-8') if isinstance(msg, str) else msg
    msg_bytes = msg_bytes.ljust(1024, b'\0')
    sock.sendall(msg_bytes)
    v}
    The bytes handed to [sendall]; [None] is the [UnicodeEncodeError]. *)
Definition agent_frame (msg : pystr) : option pybytes :=
  match utf8_encode msg with
  | Some msg_bytes => Some (ljust FRAME_SIZE msg_bytes)
  | None => None
  end.

(* ================================================================= *)
(** ** Auxiliary definitions for the statements *)

(** The codes [handle_client_message] has a branch for. *)
Definition recognized_codes : list pystr :=
  [lit "CLIENT_STATUS_RESPONSE"; lit "CHECK_VARIABLE_REQUEST";
   lit "CHANGE_VARIABLE_RESPONSE"; lit "REPORT_CLIENT_ERROR";
   lit "REPORT_CLIENT_FINISH"; lit "LOG_CLIENT_EVENT"; lit "CLIENT_LOG_EVENT"].

(** The UI events a step adds, none of them a [client_disconnected]. *)
Definition adds_no_disconnect (st st' : ServerState) : Prop :=
  exists evs, ui_events st' = ui_events st ++ evs /\
              forall c, EvClientDisconnected c ∉ evs.

(** A hub with one connected agent [CLIENT_1], as [handle_client] leaves
    it after the accept. *)
Definition one_client_state : ServerState :=
  store_session (lit "CLIENT_1") (new_session (lit "CLIENT_1") 0)
    (snd (get_next_client_id init_state)).

Definition vip_session : ClientSession :=
  with_variable (lit "TICKET_TEXT") (lit "VIP") (new_session (lit "CLIENT_1") 0).

(** The only session fields an agent message may write. *)
Definition same_identity (s s' : ClientSession) : Prop :=
  client_id s' = client_id s /\ bot_id s' = bot_id s /\
  variables s' = variables s /\ last_seen s' = last_seen s.

(** The well-formed UTF-8 byte sequences, row by row as in Table 3-7 of
    the Unicode standard: the range of each byte of the sequence. *)
Definition table_3_7 : list (list (Z * Z)) :=
  [[(0x00, 0x7F)];
   [(0xC2, 0xDF); (0x80, 0xBF)];
   [(0xE0, 0xE0); (0xA0, 0xBF); (0x80, 0xBF)];
   [(0xE1, 0xEC); (0x80, 0xBF); (0x80, 0xBF)];
   [(0xED, 0xED); (0x80, 0x9F); (0x80, 0xBF)];
   [(0xEE, 0xEF); (0x80, 0xBF); (0x80, 0xBF)];
   [(0xF0, 0xF0); (0x90, 0xBF); (0x80, 0xBF); (0x80, 0xBF)];
   [(0xF1, 0xF3); (0x80, 0xBF); (0x80, 0xBF); (0x80, 0xBF)];
   [(0xF4, 0xF4); (0x80, 0x8F); (0x80, 0xBF); (0x80, 0xBF)]].

(** The bytes start with a sequence of the given row. *)
Fixpoint fits (row : list (Z * Z)) (bs : pybytes) : bool :=
  match row, bs with
  | [], _ => true
  | (lo, hi) :: row', b :: bs' => in_range lo hi b && fits row' bs'
  | _ :: _, [] => false
  end.

(** A well-formed sequence starts at the head of [bs]. *)
Definition starts_well_formed (bs : pybytes) : bool :=
  existsb (fun row => fits row bs) table_3_7.

(** No well-formed sequence starts anywhere in [bs] (one that would need
    bytes past its end does not count): [bs] is ill-formed throughout. *)
Fixpoint no_well_formed (bs : pybytes) : bool :=
  match bs with
  | [] => true
  | b :: r => negb (starts_well_formed (b :: r)) && no_well_formed r
  end.

(** Every byte range of the row is within the continuation bytes. *)
Definition cont_row (row : list (Z * Z)) : bool :=
  forallb (fun p => (0x80 <=? p.1) && (p.2 <=? 0xBF)) row.

(** The agent messages that add a log line, with that line: the text of
    a log event, ["ERROR: "] and the error text, ["FINISHED: "] and the
    (single-field) result. *)
Definition log_message (m l : pystr) : Prop :=
  m = lit "LOG_CLIENT_EVENT/" ++ l \/
  m = lit "CLIENT_LOG_EVENT/" ++ l \/
  (exists e, m = lit "REPORT_CLIENT_ERROR/" ++ e /\ l = lit "ERROR: " ++ e) \/
  (exists a, (SLASH ∉ a) /\ m = lit "REPORT_CLIENT_FINISH/" ++ a /\
             l = lit "FINISHED: " ++ a).

(* ================================================================= *)
(** ** Checks on small inputs *)

Example parse_ex :
  parse_message (lit "REPORT_CLIENT_ERROR/a/b") =
  (lit "REPORT_CLIENT_ERROR", [lit "a"; lit "b"]).
Proof. reflexivity. Qed.

Example id_ex : fst (get_next_client_id init_state) = lit "CLIENT_1".
Proof. reflexivity. Qed.

(* ================================================================= *)
(** ** The frame codec *)

(** Case analysis on every integer comparison of the goal. *)
Ltac zbool :=
  repeat (unfold in_range, is_cont, second3_ok, second4_ok;
          match goal with
          | |- context [Z.ltb ?a ?b] => destruct (Z.ltb_spec a b); try (exfalso; lia)
          | |- context [Z.leb ?a ?b] => destruct (Z.leb_spec a b); try (exfalso; lia)
          | |- context [Z.eqb ?a ?b] => destruct (Z.eqb_spec a b); try (exfalso; lia)
          end; cbn [andb orb negb]).

Lemma is_scalar_spec c :
  is_scalar c = true <-> 0 <= c < 0x110000 /\ ~ (0xD800 <= c <= 0xDFFF).
Proof.
  unfold is_scalar.
  destruct (Z.leb_spec 0 c), (Z.ltb_spec c 0x110000),
    (Z.leb_spec 0xD800 c), (Z.leb_spec c 0xDFFF); simpl; split; intros; lia.
Qed.

(** Decoding the encoding of one scalar value gives it back. *)
Lemma decode_encode_char c r :
  is_scalar c = true ->
  utf8_decode_ignore (utf8_encode_char c ++ r) = c :: utf8_decode_ignore r.
Proof.
  rewrite is_scalar_spec. intros [[H1 H2] H3].
  unfold utf8_encode_char.
  destruct (Z.ltb_spec c 0x80).
  { simpl. destruct (Z.leb_spec 0 c); [|lia].
    destruct (Z.ltb_spec c 0x80); [|lia]. reflexivity. }
  pose proof (Z.div_mod c 64 ltac:(lia)). pose proof (Z.mod_pos_bound c 64 ltac:(lia)).
  pose proof (Z.div_mod (c / 64) 64 ltac:(lia)).
  pose proof (Z.mod_pos_bound (c / 64) 64 ltac:(lia)).
  pose proof (Z.div_mod (c / 4096) 64 ltac:(lia)).
  pose proof (Z.mod_pos_bound (c / 4096) 64 ltac:(lia)).
  rewrite (Z.div_div c 64 64) in * by lia. rewrite (Z.div_div c 4096 64) in * by lia.
  change (64 * 64) with 4096 in *. change (4096 * 64) with 262144 in *.
  set (q1 := c / 64) in *. set (m1 := c mod 64) in *.
  set (q2 := c / 4096) in *. set (m2 := q1 mod 64) in *.
  set (q3 := c / 262144) in *. set (m3 := q2 mod 64) in *.
  clearbody q1 m1 q2 m2 q3 m3.
  destruct (Z.ltb_spec c 0x800).
  { cbn [app utf8_decode_ignore]. zbool. f_equal. lia. }
  destruct (Z.ltb_spec c 0x10000).
  { cbn [app utf8_decode_ignore].
    assert (c < 0xD800 \/ 0xDFFF < c) as [Hs|Hs] by lia; zbool; f_equal; lia. }
  { cbn [app utf8_decode_ignore]. zbool; f_equal; lia. }
Qed.

Lemma decode_encode s bs :
  utf8_encode s = Some bs -> utf8_decode_ignore bs = s.
Proof.
  revert bs. induction s as [|c s IH]; simpl; intros bs Henc.
  - by injection Henc as <-.
  - destruct (is_scalar c) eqn:Hc; [|discriminate].
    destruct (utf8_encode s) as [bs'|] eqn:Hs; [|discriminate].
    injection Henc as <-. rewrite decode_encode_char by done. f_equal. by apply IH.
Qed.

Lemma encode_char_last c :
  is_scalar c = true -> c <> 0 -> last (utf8_encode_char c) <> Some 0.
Proof.
  rewrite is_scalar_spec. intros [[H1 H2] _] Hc.
  pose proof (Z.mod_pos_bound c 64 ltac:(lia)).
  unfold utf8_encode_char.
  destruct (Z.ltb_spec c 0x80); [simpl; congruence|].
  destruct (Z.ltb_spec c 0x800); [simpl; intros [=]; lia|].
  destruct (Z.ltb_spec c 0x10000); simpl; intros [=]; lia.
Qed.

Lemma encode_char_nonempty c : utf8_encode_char c <> [].
Proof.
  unfold utf8_encode_char.
  destruct (c <? 0x80), (c <? 0x800), (c <? 0x10000); discriminate.
Qed.

Lemma encode_last s bs :
  utf8_encode s = Some bs -> last s <> Some 0 -> last bs <> Some 0.
Proof.
  revert bs. induction s as [|c s IH]; simpl; intros bs Henc Hl.
  - by injection Henc as <-.
  - destruct (is_scalar c) eqn:Hc; [|discriminate].
    destruct (utf8_encode s) as [bs'|] eqn:Hs; [|discriminate].
    injection Henc as <-. rewrite last_app.
    destruct s as [|c' s].
    + simpl in Hs. injection Hs as <-. simpl.
      apply encode_char_last; [done|]. intros ->. by apply Hl.
    + rewrite last_cons in Hl.
      destruct (last bs') as [y|] eqn:Hy.
      * specialize (IH bs' eq_refl). rewrite Hy in IH.
        destruct (last (c' :: s)) eqn:E; [by apply IH|].
        apply last_None in E. discriminate.
      * apply last_None in Hy. subst bs'. simpl in Hs.
        destruct (is_scalar c'); [|discriminate].
        destruct (utf8_encode s); [|discriminate].
        injection Hs as Hs. apply app_eq_nil in Hs as [Hs _].
        by apply encode_char_nonempty in Hs.
Qed.

Lemma drop_nuls_pad k x : drop_nuls (replicate k 0 ++ x) = drop_nuls x.
Proof. induction k; simpl; auto. Qed.

Lemma drop_nuls_snoc x b :
  b <> 0 -> drop_nuls (x ++ [b]) = drop_nuls x ++ [b].
Proof.
  intros Hb. induction x as [|y x IH]; simpl.
  - destruct (Z.eqb_spec b 0); [lia|done].
  - destruct (Z.eqb_spec y 0); [done|reflexivity].
Qed.

Lemma rstrip_pad bs k : rstrip_nul (bs ++ replicate k 0) = rstrip_nul bs.
Proof.
  unfold rstrip_nul. by rewrite reverse_app, reverse_replicate, drop_nuls_pad.
Qed.

Lemma rstrip_last bs : last bs <> Some 0 -> rstrip_nul bs = bs.
Proof.
  intros Hl. unfold rstrip_nul. rewrite <- head_reverse in Hl.
  destruct (reverse bs) as [|b x] eqn:E.
  - simpl. rewrite <- (reverse_involutive bs), E. done.
  - simpl in Hl. simpl. destruct (Z.eqb_spec b 0); [congruence|].
    rewrite <- E. apply reverse_involutive.
Qed.

Lemma rstrip_cons b f : b <> 0 -> rstrip_nul (b :: f) = b :: rstrip_nul f.
Proof.
  intros Hb. unfold rstrip_nul.
  by rewrite reverse_cons, drop_nuls_snoc, reverse_snoc.
Qed.

(** Turn the integer comparisons of the hypotheses into [lia] facts. *)
Ltac zhyps :=
  repeat match goal with
  | H : _ && _ = true |- _ => apply andb_prop in H as [? ?]
  | H : _ && _ = false |- _ => apply andb_false_iff in H as [?|?]
  | H : (_ <=? _) = true |- _ => apply Z.leb_le in H
  | H : (_ <=? _) = false |- _ => apply Z.leb_gt in H
  | H : (_ <? _) = true |- _ => apply Z.ltb_lt in H
  | H : (_ <? _) = false |- _ => apply Z.ltb_ge in H
  | H : (_ =? _) = true |- _ => apply Z.eqb_eq in H
  | H : (_ =? _) = false |- _ => apply Z.eqb_neq in H
  | H : context [in_range] |- _ => unfold in_range in H
  | H : context [is_cont] |- _ => unfold is_cont in H
  | H : context [second3_ok] |- _ => unfold second3_ok in H
  | H : context [second4_ok] |- _ => unfold second4_ok in H
  | H : context [if Z.eqb ?a ?b then _ else _] |- _ => destruct (Z.eqb_spec a b)
  end.

(** Induction following the recursion of [utf8_decode_ignore], which
    recurses on a suffix of its argument. *)
Lemma bytes_len_ind (P : pybytes -> Prop) :
  P [] ->
  (forall b0 r0, (forall r, (length r < length (b0 :: r0))%nat -> P r) -> P (b0 :: r0)) ->
  forall bs, P bs.
Proof.
  intros Hnil Hcons bs.
  remember (length bs) as n eqn:En. revert bs En.
  induction n as [n IH] using (well_founded_induction Nat.lt_wf_0).
  intros [|b0 r0] En; [done|].
  apply Hcons. intros r Hr. apply (IH (length r)); [subst; done|done].
Qed.

Ltac decode_step IH :=
  cbn [utf8_decode_ignore]; repeat case_match; zhyps;
  try (apply IH; simpl; lia).

(** Every code point the decoder produces is a scalar value. *)
Lemma decode_scalars bs :
  Forall (fun c => is_scalar c = true) (utf8_decode_ignore bs).
Proof.
  induction bs as [|b0 r0 IH] using bytes_len_ind; [constructor|].
  decode_step IH; constructor; try (apply IH; simpl; lia);
    apply is_scalar_spec; lia.
Qed.

(** U+FFFD comes out of the decoder only from a byte 0xEF of its input. *)
Lemma decode_no_replacement bs :
  0xEF ∉ bs -> 0xFFFD ∉ utf8_decode_ignore bs.
Proof.
  induction bs as [|b0 r0 IH] using bytes_len_ind; [intros _; set_solver|].
  intros Hin. rewrite elem_of_cons in Hin.
  assert (b0 <> 0xEF) by naive_solver.
  decode_step IH;
    try (apply IH; [simpl; lia|]; set_solver);
    rewrite elem_of_cons; intros [?|Hr]; try lia;
    revert Hr; apply IH; simpl; try lia; set_solver.
Qed.

Lemma pack_message_short msg bs :
  utf8_encode msg = Some bs -> (length bs <= FRAME_SIZE)%nat ->
  pack_message msg = Some (bs ++ replicate (FRAME_SIZE - length bs) 0).
Proof.
  intros Henc Hlen. unfold pack_message. rewrite Henc.
  destruct (Nat.ltb_spec FRAME_SIZE (length bs)); [lia|done].
Qed.

(** C2 (as the claim states it, refuted): a message of 1025 ASCII
    characters is packed without any error, cut to 1024 bytes. *)
Lemma C2_counterexample :
  pack_message (replicate 1025 97) = Some (replicate 1024 97).
Proof. vm_compute. reflexivity. Qed.

(** C2 (amended): [pack_message] signals no error on overflow.  When the
    UTF-8 encoding of a message is longer than the 1024-byte frame, the
    frame is the first 1024 bytes of the encoding, with no padding. *)
Theorem C2_pack_truncates_overflow (msg bs : pystr) :
  utf8_encode msg = Some bs ->
  (FRAME_SIZE < length bs)%nat ->
  pack_message msg = Some (take FRAME_SIZE bs) /\
  length (take FRAME_SIZE bs) = FRAME_SIZE.
Proof.
  intros Henc Hlen. unfold pack_message. rewrite Henc.
  destruct (Nat.ltb_spec FRAME_SIZE (length bs)); [|lia].
  rewrite length_take. unfold ljust. rewrite length_take.
  replace (FRAME_SIZE - Nat.min FRAME_SIZE (length bs))%nat with 0%nat by lia.
  rewrite app_nil_r. split; [done|lia].
Qed.

Lemma C2_witness :
  utf8_encode (replicate 1025 97) = Some (replicate 1025 97) /\
  (FRAME_SIZE < length (replicate 1025 97))%nat /\
  pack_message (replicate 1025 97) = Some (take FRAME_SIZE (replicate 1025 97)).
Proof.
  assert (He : utf8_encode (replicate 1025 97) = Some (replicate 1025 97))
    by (vm_compute; reflexivity).
  assert (Hl : (FRAME_SIZE < length (replicate 1025 97))%nat)
    by (rewrite length_replicate; unfold FRAME_SIZE; lia).
  split; [exact He|]. split; [exact Hl|].
  exact (proj1 (C2_pack_truncates_overflow _ _ He Hl)).
Defined.

(** C3 (as the claim states it, refuted): the string "a\x00" encodes to
    two bytes, but its trailing NUL is lost on the way back. *)
Lemma C3_counterexample :
  utf8_encode [97; 0] = Some [97; 0] /\
  exists f, pack_message [97; 0] = Some f /\ unpack_message f = [97] /\
  unpack_message f <> [97; 0].
Proof.
  split; [reflexivity|].
  eexists. split; [reflexivity|]. split; [vm_compute; reflexivity|].
  vm_compute. discriminate.
Qed.

(** C3 (amended): for every string whose UTF-8 encoding fits in the frame
    and whose last character is not NUL, [pack_message] succeeds and
    [unpack_message] of its frame is the string again. *)
Theorem C3_roundtrip_no_trailing_nul (s bs : pystr) :
  utf8_encode s = Some bs ->
  (length bs <= FRAME_SIZE)%nat ->
  last s <> Some 0 ->
  exists f, pack_message s = Some f /\ unpack_message f = s.
Proof.
  intros Henc Hlen Hlast.
  exists (bs ++ replicate (FRAME_SIZE - length bs) 0).
  split; [by apply pack_message_short|].
  unfold unpack_message. rewrite rstrip_pad, rstrip_last.
  - by apply decode_encode.
  - by apply (encode_last s).
Qed.

Lemma C3_witness :
  exists f, pack_message [0x56; 0xE9; 0x20AC] = Some f /\
            unpack_message f = [0x56; 0xE9; 0x20AC].
Proof.
  apply (C3_roundtrip_no_trailing_nul _ [0x56; 0xC3; 0xA9; 0xE2; 0x82; 0xAC]).
  - reflexivity.
  - simpl. unfold FRAME_SIZE. lia.
  - simpl. discriminate.
Defined.

(** C4 (as the claim states it, refuted): a frame whose only non-NUL byte
    is the invalid byte 0xFF decodes to the empty string, not to U+FFFD. *)
Lemma C4_counterexample :
  unpack_message (0xFF :: replicate 1023 0) = [] /\
  0xFFFD ∉ unpack_message (0xFF :: replicate 1023 0).
Proof.
  assert (E : unpack_message (0xFF :: replicate 1023 0) = []) by (vm_compute; reflexivity).
  rewrite E. split; [done|]. set_solver.
Qed.

(* ================================================================= *)
(** ** Agent messages and operator commands *)

Lemma clients_send_to_client cid msg st :
  clients (send_to_client cid msg st) = clients st.
Proof. unfold send_to_client. by destruct (pack_message msg). Qed.

Lemma sent_send_to_client cid msg st f :
  pack_message msg = Some f ->
  sent (send_to_client cid msg st) = sent st ++ [(cid, f)].
Proof. unfold send_to_client. by intros ->. Qed.

(** The [CHECK_VARIABLE_REQUEST/TICKET_CODE] message. *)
Lemma handle_ticket_code_request st cid s :
  clients st !! cid = Some s ->
  handle_client_message st cid (lit "CHECK_VARIABLE_REQUEST/TICKET_CODE") =
  send_to_client cid
    (lit "CHECK_VARIABLE_RESPONSE/" ++
     dict_get (ticket_code_map st)
       (dict_get (variables s) (lit "TICKET_TEXT") (lit "NONE")) (lit "NONE")) st.
Proof. intros H. unfold handle_client_message. rewrite H. reflexivity. Qed.


(** C6: after the operator sets code "C1" for ticket text "VIP", an agent
    whose TICKET_TEXT is "VIP" asking for TICKET_CODE is sent a frame that
    decodes to [CHECK_VARIABLE_RESPONSE/C1], whatever its own TICKET_CODE
    variable holds; when the agent's TICKET_TEXT has no code in the map,
    the frame decodes to [CHECK_VARIABLE_RESPONSE/NONE]. *)
Theorem C6_ticket_code_resolution (st : ServerState) (cid : pystr)
    (s : ClientSession) :
  clients st !! cid = Some s ->
  (variables s !! lit "TICKET_TEXT" = Some (lit "VIP") ->
   let st1 := handle_ui_command st
                (UiSetTicketCode (Some (lit "VIP")) (Some (lit "C1"))) in
   exists f,
     sent (handle_client_message st1 cid (lit "CHECK_VARIABLE_REQUEST/TICKET_CODE"))
       = sent st ++ [(cid, f)] /\
     unpack_message f = lit "CHECK_VARIABLE_RESPONSE/C1") /\
  (ticket_code_map st !! dict_get (variables s) (lit "TICKET_TEXT") (lit "NONE")
     = None ->
   exists f,
     sent (handle_client_message st cid (lit "CHECK_VARIABLE_REQUEST/TICKET_CODE"))
       = sent st ++ [(cid, f)] /\
     unpack_message f = lit "CHECK_VARIABLE_RESPONSE/NONE").
Proof.
  intros Hs. split.
  - intros Htt st1.
    assert (Hc : clients st1 !! cid = Some s) by (subst st1; exact Hs).
    rewrite (handle_ticket_code_request st1 cid s Hc).
    assert (Hv : dict_get (ticket_code_map st1)
                   (dict_get (variables s) (lit "TICKET_TEXT") (lit "NONE"))
                   (lit "NONE") = lit "C1").
    { unfold dict_get. rewrite Htt. subst st1. simpl.
      by rewrite lookup_insert_eq. }
    rewrite Hv. exists (ljust FRAME_SIZE (lit "CHECK_VARIABLE_RESPONSE/C1")). split.
    + rewrite (sent_send_to_client _ _ _
                 (ljust FRAME_SIZE (lit "CHECK_VARIABLE_RESPONSE/C1")))
        by (vm_compute; reflexivity).
      subst st1. reflexivity.
    + vm_compute. reflexivity.
  - intros Hnone. rewrite (handle_ticket_code_request st cid s Hs).
    unfold dict_get at 1. rewrite Hnone.
    exists (ljust FRAME_SIZE (lit "CHECK_VARIABLE_RESPONSE/NONE")). split.
    + apply sent_send_to_client. vm_compute. reflexivity.
    + vm_compute. reflexivity.
Qed.


Lemma C6_witness :
  exists f,
    sent (handle_client_message
            (handle_ui_command (store_session (lit "CLIENT_1") vip_session one_client_state)
               (UiSetTicketCode (Some (lit "VIP")) (Some (lit "C1"))))
            (lit "CLIENT_1") (lit "CHECK_VARIABLE_REQUEST/TICKET_CODE"))
      = [(lit "CLIENT_1", f)] /\
    unpack_message f = lit "CHECK_VARIABLE_RESPONSE/C1".
Proof.
  apply (proj1 (C6_ticket_code_resolution
                  (store_session (lit "CLIENT_1") vip_session one_client_state)
                  (lit "CLIENT_1") vip_session ltac:(vm_compute; reflexivity))).
  vm_compute. reflexivity.
Defined.

(** C8: a message whose code has no branch in [handle_client_message], or
    whose payload is empty (no ['/'] after the code), changes nothing: no
    session field, no registry entry, no ticket code, no UI event and no
    frame sent to the agent. *)
Theorem C8_unknown_or_empty_dropped (st : ServerState) (cid msg : pystr) :
  fst (parse_message msg) ∉ recognized_codes \/ snd (parse_message msg) = [] ->
  handle_client_message st cid msg = st.
Proof.
  unfold handle_client_message.
  destruct (clients st !! cid) as [s|]; [|done].
  destruct (parse_message msg) as [code payload]; simpl.
  intros H. unfold pystr_eqb, recognized_codes in *.
  destruct H as [H | ->].
  - rewrite !not_elem_of_cons in H.
    repeat case_bool_decide; simpl; naive_solver.
  - repeat case_bool_decide; done.
Qed.

Lemma C8_witness :
  handle_client_message one_client_state (lit "CLIENT_1") (lit "SHUTDOWN/now")
  = one_client_state.
Proof.
  apply C8_unknown_or_empty_dropped. left.
  cbv [parse_message fst]. vm_compute. intros H.
  repeat (apply elem_of_cons in H as [H|H]; [discriminate|]).
  by apply not_elem_of_nil in H.
Defined.

(** C10: a [set_ticket_code] command whose ticket text or code is missing
    or empty leaves the whole hub state unchanged: the ticket-code map,
    and the UI events (no [ticket_map_changed]). *)
Theorem C10_set_ticket_code_guard (st : ServerState) (t c : option pystr) :
  t = None \/ t = Some [] \/ c = None \/ c = Some [] ->
  handle_ui_command st (UiSetTicketCode t c) = st.
Proof.
  intros H. simpl.
  destruct t as [t|]; [|done]. destruct c as [c|]; [|done].
  destruct H as [H|[H|[H|H]]]; try discriminate;
    injection H as ->; simpl; [done|].
  by destruct t.
Qed.

Lemma C10_witness :
  handle_ui_command one_client_state (UiSetTicketCode (Some (lit "VIP")) (Some []))
  = one_client_state.
Proof. apply C10_set_ticket_code_guard. right. right. right. reflexivity. Defined.

(** Every [CHANGE_VARIABLE_RESPONSE] is only printed. *)
Lemma handle_change_variable_response st cid r :
  handle_client_message st cid (lit "CHANGE_VARIABLE_RESPONSE/" ++ r) = st.
Proof.
  unfold handle_client_message. destruct (clients st !! cid); reflexivity.
Qed.

(** C1 (as the claim states it, refuted): the registry copy of BOT_ID is
    "x7" as soon as the operator applies it, and stays "x7" after the
    agent answers FAIL; it does not keep its prior value "NONE". *)
Lemma C1_counterexample :
  let st1 := one_client_state in
  let st2 := handle_ui_command st1
               (UiApplyVariable [lit "CLIENT_1"] (lit "BOT_ID") (lit "x7")) in
  let st3 := handle_client_message st2 (lit "CLIENT_1")
               (lit "CHANGE_VARIABLE_RESPONSE/FAIL") in
  (clients st1 !! lit "CLIENT_1") ≫= (fun s => variables s !! lit "BOT_ID")
    = Some (lit "NONE") /\
  (clients st3 !! lit "CLIENT_1") ≫= (fun s => variables s !! lit "BOT_ID")
    = Some (lit "x7").
Proof. vm_compute. split; reflexivity. Qed.

(** Each branch of [handle_client_message] keeps the session in the
    registry and appends to its log list, never removing from it. *)
Lemma handle_client_message_logs st cid m s :
  clients st !! cid = Some s ->
  exists s' added,
    clients (handle_client_message st cid m) !! cid = Some s' /\
    logs s' = logs s ++ added.
Proof.
  intros Hs. unfold handle_client_message. rewrite Hs.
  destruct (parse_message m) as [code payload].
  repeat case_match;
    eexists _, _; (split;
      [cbn [clients broadcast_to_ui store_session set_clients];
       rewrite ?clients_send_to_client, ?lookup_insert_eq; try exact Hs;
       reflexivity
      | cbn [logs with_status append_log];
        first [reflexivity | symmetry; apply app_nil_r]]).
Qed.

Lemma handle_client_messages_logs st cid msgs s :
  clients st !! cid = Some s ->
  exists s' added,
    clients (handle_client_messages st cid msgs) !! cid = Some s' /\
    logs s' = logs s ++ added.
Proof.
  revert st s. induction msgs as [|m ms IH]; intros st s Hs; simpl.
  - exists s, []. by rewrite app_nil_r.
  - destruct (handle_client_message_logs st cid m s Hs) as (s1 & a1 & H1 & L1).
    destruct (IH _ _ H1) as (s2 & a2 & H2 & L2).
    exists s2, (a1 ++ a2). split; [done|]. by rewrite L2, L1, app_assoc.
Qed.

Lemma last_n_spec {A} (n : nat) (l : list A) :
  length (last_n n l) = Nat.min n (length l) /\
  exists dropped, l = dropped ++ last_n n l.
Proof.
  unfold last_n. split.
  - rewrite length_drop. lia.
  - exists (take (length l - n) l). symmetry. apply take_drop.
Qed.

(** C5 (as the claim states it, refuted): after 51 [LOG_CLIENT_EVENT]
    messages the session stores 51 log entries. *)
Lemma C5_counterexample :
  (clients (handle_client_messages one_client_state (lit "CLIENT_1")
              (replicate 51 (lit "LOG_CLIENT_EVENT/step")))
     !! lit "CLIENT_1") ≫= (fun s => Some (length (logs s)))
  = Some 51%nat.
Proof. vm_compute. reflexivity. Qed.

(* ================================================================= *)
(** ** Connection lifecycle *)


Lemma adds_no_disconnect_refl st : adds_no_disconnect st st.
Proof. exists []. split; [by rewrite app_nil_r|]. intros c; set_solver. Qed.

Lemma adds_no_disconnect_same st st' :
  ui_events st' = ui_events st -> adds_no_disconnect st st'.
Proof. intros E. exists []. rewrite E, app_nil_r. split; [done|]. intros c; set_solver. Qed.

Lemma adds_no_disconnect_trans st1 st2 st3 :
  adds_no_disconnect st1 st2 -> adds_no_disconnect st2 st3 ->
  adds_no_disconnect st1 st3.
Proof.
  intros (e1 & E1 & N1) (e2 & E2 & N2). exists (e1 ++ e2).
  split; [by rewrite E2, E1, app_assoc|]. intros c. specialize (N1 c). specialize (N2 c).
  set_solver.
Qed.

Lemma send_to_client_no_disconnect cid msg st :
  adds_no_disconnect st (send_to_client cid msg st).
Proof.
  unfold send_to_client. destruct (pack_message msg); [|apply adds_no_disconnect_refl].
  exists []. split; [simpl; by rewrite app_nil_r|]. intros c; set_solver.
Qed.

Lemma handle_client_message_no_disconnect st cid m :
  adds_no_disconnect st (handle_client_message st cid m).
Proof.
  unfold handle_client_message.
  destruct (clients st !! cid) as [s|]; [|apply adds_no_disconnect_refl].
  destruct (parse_message m) as [code payload].
  repeat case_match; try apply adds_no_disconnect_refl;
    try apply send_to_client_no_disconnect;
    eexists; (split; [reflexivity|]); intros c; set_solver.
Qed.

Lemma client_loop_no_disconnect cid frames st :
  adds_no_disconnect st (client_loop cid frames st).
Proof.
  revert st. induction frames as [|[t data] rest IH]; intros st; simpl;
    [apply adds_no_disconnect_refl|].
  destruct data as [|b data]; [apply adds_no_disconnect_refl|].
  set (st1 := match clients st !! cid with
              | Some session => store_session cid (with_last_seen t session) st
              | None => st end).
  assert (H1 : adds_no_disconnect st st1)
    by (subst st1; destruct (clients st !! cid);
        [apply adds_no_disconnect_same; reflexivity|apply adds_no_disconnect_refl]).
  destruct (unpack_message (b :: data)).
  - eapply adds_no_disconnect_trans; [exact H1|apply IH].
  - eapply adds_no_disconnect_trans; [exact H1|].
    eapply adds_no_disconnect_trans;
      [apply handle_client_message_no_disconnect|apply IH].
Qed.

(** A connection that ends by a clean close: one [client_connected] for
    its id, then only other events, then one [client_disconnected] for its
    id, and the session is gone from the registry. *)
Lemma handle_client_clean_close st now frames :
  let cid := fst (get_next_client_id st) in
  let st' := handle_client st now frames ClosedByPeer in
  clients st' !! cid = None /\
  exists evs,
    ui_events st' = ui_events st ++ EvClientConnected (to_dict (new_session cid now))
                      :: evs ++ [EvClientDisconnected cid] /\
    forall c, EvClientDisconnected c ∉ evs.
Proof.
  simpl. split; [by rewrite lookup_delete_eq|].
  set (st0 := broadcast_to_ui _ _).
  destruct (client_loop_no_disconnect (client_id_str (S (client_counter st))) frames st0)
    as (evs & E & N).
  exists evs. split; [|done].
  cbn [ui_events broadcast_to_ui set_clients]. rewrite E.
  subst st0. simpl. by rewrite <- !app_assoc.
Qed.

(** C7 (code defect): when the agent's connection fails with a socket
    error, the session is removed from the registry and [client_connected]
    was broadcast for it, but [wait_closed] re-raises the error before the
    [client_disconnected] broadcast: no [client_disconnected] event is
    ever emitted for that session. *)
Theorem C7_connection_error_skips_disconnect (st : ServerState) (now : Z)
    (frames : list (Z * pybytes)) :
  let cid := fst (get_next_client_id st) in
  let st' := handle_client st now frames ConnectionFailed in
  clients st' !! cid = None /\
  exists evs,
    ui_events st' = ui_events st ++ EvClientConnected (to_dict (new_session cid now))
                      :: evs /\
    EvClientDisconnected cid ∉ evs.
Proof.
  simpl. split; [by rewrite lookup_delete_eq|].
  set (st0 := broadcast_to_ui _ _).
  destruct (client_loop_no_disconnect (client_id_str (S (client_counter st))) frames st0)
    as (evs & E & N).
  exists evs. split; [|apply N].
  cbn [ui_events set_clients]. rewrite E.
  subst st0. simpl. by rewrite <- !app_assoc.
Qed.

(* ================================================================= *)
(** ** Client ids *)

Lemma lit_inj (a b : string) : lit a = lit b -> a = b.
Proof.
  revert b. induction a as [|x a IH]; intros [|y b]; simpl; try discriminate; [done|].
  intros [= Hxy Hab]. apply Nat2Z.inj in Hxy.
  rewrite <- (ascii_nat_embedding x), <- (ascii_nat_embedding y), Hxy.
  f_equal. by apply IH.
Qed.

Lemma client_id_str_inj k1 k2 : client_id_str k1 = client_id_str k2 -> k1 = k2.
Proof.
  unfold client_id_str, int_str. intros H.
  apply app_inv_head in H. apply lit_inj in H. by apply (inj pretty).
Qed.

Lemma alloc_ids_spec n st :
  fst (alloc_ids n st) = map client_id_str (seq (S (client_counter st)) n) /\
  client_counter (snd (alloc_ids n st)) = (client_counter st + n)%nat.
Proof.
  revert st. induction n as [|n IH]; intros st; simpl; [split; [done|lia]|].
  destruct (IH (snd (get_next_client_id st))) as [H1 H2].
  destruct (alloc_ids n _) as [ids st'] eqn:E. simpl in *.
  rewrite H1, H2. split; [done|lia].
Qed.

Lemma counter_send_to_client cid msg st :
  client_counter (send_to_client cid msg st) = client_counter st.
Proof. unfold send_to_client. by destruct (pack_message msg). Qed.

Lemma counter_handle_client_message st cid m :
  client_counter (handle_client_message st cid m) = client_counter st.
Proof.
  unfold handle_client_message. destruct (clients st !! cid); [|done].
  destruct (parse_message m). repeat case_match; try done;
  apply counter_send_to_client.
Qed.

Lemma counter_apply_variable_loop cids var val st :
  client_counter (apply_variable_loop cids var val st) = client_counter st.
Proof.
  revert st. induction cids as [|cid cids IH]; intros st; simpl; [done|].
  rewrite IH. destruct (clients st !! cid); [|done].
  by rewrite counter_send_to_client.
Qed.

Lemma counter_send_to_clients cids msg st :
  client_counter (send_to_clients cids msg st) = client_counter st.
Proof.
  revert st. induction cids as [|cid cids IH]; intros st; simpl; [done|].
  rewrite IH. destruct (clients st !! cid); [|done].
  by rewrite counter_send_to_client.
Qed.

Lemma counter_handle_ui_command st cmd :
  client_counter (handle_ui_command st cmd) = client_counter st.
Proof.
  destruct cmd as [| |cids var val|cids|cids|t c|]; simpl; try done.
  - apply counter_apply_variable_loop.
  - apply counter_send_to_clients.
  - apply counter_send_to_clients.
  - destruct t, c; try done. by case_match.
Qed.

(** C9: [n] successive allocations from any state return CLIENT_k for
    the next [n] values of the counter, in increasing order and all
    distinct; the counter grows by [n]; the first id of a fresh hub is
    "CLIENT_1"; and no agent message or operator command moves the
    counter, so an id is never handed out twice while the hub runs. *)
Theorem C9_client_ids_monotone_unique (st : ServerState) (n : nat) :
  fst (alloc_ids n st) = map client_id_str (seq (S (client_counter st)) n) /\
  NoDup (fst (alloc_ids n st)) /\
  client_counter (snd (alloc_ids n st)) = (client_counter st + n)%nat /\
  fst (get_next_client_id init_state) = lit "CLIENT_1" /\
  (forall (cid m : pystr),
     client_counter (handle_client_message st cid m) = client_counter st) /\
  (forall cmd : UICommand,
     client_counter (handle_ui_command st cmd) = client_counter st).
Proof.
  destruct (alloc_ids_spec n st) as [H1 H2].
  split; [done|]. split.
  { rewrite H1. apply NoDup_fmap_2; [|apply NoDup_seq].
    intros k1 k2. apply client_id_str_inj. }
  split; [done|]. split; [reflexivity|]. split.
  - apply counter_handle_client_message.
  - apply counter_handle_ui_command.
Qed.

(* ================================================================= *)
(** ** Splitting and joining fields *)

Lemma py_split_nonempty sep s : py_split sep s <> [].
Proof.
  induction s as [|c s IH]; simpl; [discriminate|].
  destruct (c =? sep); [discriminate|]. by destruct (py_split sep s).
Qed.

Lemma py_join_cons_head sep c w ws :
  py_join sep ((c :: w) :: ws) = c :: py_join sep (w :: ws).
Proof. by destruct ws. Qed.

Lemma py_join_cons2 sep p q qs :
  py_join sep (p :: q :: qs) = p ++ sep :: py_join sep (q :: qs).
Proof. done. Qed.

Lemma py_join_split sep s : py_join sep (py_split sep s) = s.
Proof.
  induction s as [|c s IH]; simpl; [done|].
  destruct (Z.eqb_spec c sep) as [->|Hc].
  - pose proof (py_split_nonempty sep s) as Hne.
    destruct (py_split sep s) as [|w ws]; [done|].
    rewrite py_join_cons2, IH. done.
  - pose proof (py_split_nonempty sep s) as Hne.
    destruct (py_split sep s) as [|w ws] eqn:E; [done|].
    rewrite py_join_cons_head. by rewrite IH.
Qed.

Lemma py_split_no_sep sep s : sep ∉ s -> py_split sep s = [s].
Proof.
  induction s as [|c s IH]; intros Hs; simpl; [done|].
  rewrite elem_of_cons in Hs.
  destruct (Z.eqb_spec c sep); [naive_solver|].
  rewrite IH by naive_solver. done.
Qed.

Lemma py_split_app_sep sep a r :
  sep ∉ a -> py_split sep (a ++ sep :: r) = a :: py_split sep r.
Proof.
  induction a as [|c a IH]; intros Ha; simpl.
  - by rewrite Z.eqb_refl.
  - rewrite elem_of_cons in Ha.
    destruct (Z.eqb_spec c sep); [naive_solver|].
    rewrite IH by naive_solver. done.
Qed.

Lemma py_split_fields sep s : Forall (fun p => sep ∉ p) (py_split sep s).
Proof.
  induction s as [|c s IH]; simpl.
  - constructor; [set_solver|constructor].
  - destruct (Z.eqb_spec c sep).
    + constructor; [set_solver|done].
    + destruct (py_split sep s) as [|w ws]; [constructor; [set_solver|constructor]|].
      inversion IH as [|? ? Hw Hws]; subst.
      constructor; [|done]. rewrite elem_of_cons. naive_solver.
Qed.

(** A message with no payload field changes nothing. *)
Lemma handle_no_payload st cid msg :
  snd (parse_message msg) = [] -> handle_client_message st cid msg = st.
Proof.
  unfold handle_client_message.
  destruct (clients st !! cid) as [s|]; [|done].
  destruct (parse_message msg) as [code payload]; simpl. intros ->.
  unfold pystr_eqb. repeat case_bool_decide; done.
Qed.

(** X1: [parse_message] splits a message at its first ['/'] and keeps
    every other field: joining the code and the payload with ['/'] gives
    the message back, and no field contains ['/']. *)
Theorem parse_message_roundtrip (msg : pystr) :
  py_join SLASH (fst (parse_message msg) :: snd (parse_message msg)) = msg /\
  Forall (fun p => SLASH ∉ p) (fst (parse_message msg) :: snd (parse_message msg)).
Proof.
  unfold parse_message.
  pose proof (py_join_split SLASH msg) as J. pose proof (py_split_fields SLASH msg) as F.
  pose proof (py_split_nonempty SLASH msg) as Ne.
  destruct (py_split SLASH msg) as [|p ps]; [done|]. simpl. done.
Qed.

(* ================================================================= *)
(** ** Agent side against hub side *)

(** X16: the agent's [respond_to_variable_change] stores the new value
    and always answers SUCCESS: its post-write check can never fail. *)
Theorem respond_to_variable_change_success (variable new_value : pystr)
    (variables : gmap pystr pystr) :
  respond_to_variable_change variable new_value variables =
  (<[variable := new_value]> variables,
   lit "CHANGE_VARIABLE_RESPONSE" ++ PIPE :: lit "SUCCESS").
Proof.
  unfold respond_to_variable_change. rewrite lookup_insert_eq.
  by rewrite bool_decide_true.
Qed.

(** X17: the hub drops every message the agent library builds with its
    ['|'] separator when the text carries no ['/']: log events, error and
    finish reports, status answers and variable-change answers leave the
    hub state exactly as it was (no log, no status, no UI event). *)
Theorem agent_pipe_messages_dropped (st : ServerState) (cid x : pystr) :
  SLASH ∉ x ->
  handle_client_message st cid (log_event x) = st /\
  handle_client_message st cid (report_error x) = st /\
  handle_client_message st cid (report_finished x) = st /\
  handle_client_message st cid (respond_to_status_request x) = st /\
  (forall (var val : pystr) (vars : gmap pystr pystr),
     handle_client_message st cid (respond_to_variable_change var val vars).2 = st).
Proof.
  intros Hx.
  assert (Hp : forall code, SLASH ∉ code ->
            snd (parse_message (code ++ PIPE :: x)) = []).
  { intros code Hc. unfold parse_message.
    rewrite py_split_no_sep; [done|]. rewrite elem_of_app, elem_of_cons.
    unfold SLASH, PIPE. intros [?|[?|?]]; [done|lia|done]. }
  split; [|split; [|split; [|split]]];
    try (apply handle_no_payload, Hp; vm_compute; set_solver).
  intros var val vars. unfold respond_to_variable_change. simpl.
  case_bool_decide; apply handle_no_payload; vm_compute; reflexivity.
Qed.

Lemma agent_pipe_messages_dropped_witness :
  handle_client_message one_client_state (lit "CLIENT_1") (log_event (lit "signed in"))
  = one_client_state.
Proof.
  apply (agent_pipe_messages_dropped one_client_state (lit "CLIENT_1") (lit "signed in")).
  vm_compute. set_solver.
Defined.

(** X18: the agent's [get_variable] cannot read the hub's reply: the hub
    answers [CHECK_VARIABLE_RESPONSE/value] and the agent looks for the
    field after a ['|'], so for any value without ['|'] its [temp[1]]
    raises [IndexError]. *)
Theorem get_variable_reply_unreadable (value : pystr) :
  PIPE ∉ value ->
  get_variable_response (lit "CHECK_VARIABLE_RESPONSE/" ++ value) = None.
Proof.
  intros Hv. unfold get_variable_response.
  rewrite py_split_no_sep; [done|].
  rewrite elem_of_app. intros [H|H]; [vm_compute in H; set_solver|done].
Qed.

Lemma get_variable_reply_unreadable_witness :
  get_variable_response (lit "CHECK_VARIABLE_RESPONSE/VIP") = None.
Proof. apply get_variable_reply_unreadable. vm_compute. set_solver. Defined.

(** X19: the agent never recognises the hub's variable-change request:
    [split_message] of [CHANGE_VARIABLE_REQUEST/name/value] (no ['|'] in
    name or value) is the whole message, so its first field is not the
    code [CHANGE_VARIABLE_REQUEST] and [split_msg[1]] does not exist. *)
Theorem agent_ignores_change_request (var val : pystr) :
  PIPE ∉ var -> PIPE ∉ val ->
  let msg := lit "CHANGE_VARIABLE_REQUEST/" ++ var ++ SLASH :: val in
  split_message msg = [msg] /\ msg <> lit "CHANGE_VARIABLE_REQUEST".
Proof.
  intros H1 H2 msg. split.
  - unfold split_message. apply py_split_no_sep. subst msg.
    rewrite !elem_of_app, elem_of_cons. unfold SLASH, PIPE.
    intros [H|[H|[H|H]]]; [vm_compute in H; set_solver|done|lia|done].
  - subst msg. intros H. apply (f_equal length) in H.
    rewrite !length_app in H. simpl in H. lia.
Qed.

Lemma agent_ignores_change_request_witness :
  split_message (lit "CHANGE_VARIABLE_REQUEST/BOT_ID/x7") =
  [lit "CHANGE_VARIABLE_REQUEST/BOT_ID/x7"].
Proof.
  apply (agent_ignores_change_request (lit "BOT_ID") (lit "x7"));
    vm_compute; set_solver.
Defined.

(* ================================================================= *)
(** ** More on [handle_client_message] *)

Lemma parse_message_code_sep code r :
  SLASH ∉ code -> parse_message (code ++ SLASH :: r) = (code, py_split SLASH r).
Proof. intros H. unfold parse_message. by rewrite py_split_app_sep. Qed.

Lemma handle_with_payload st cid s code r :
  clients st !! cid = Some s -> SLASH ∉ code ->
  handle_client_message st cid (code ++ SLASH :: r) =
  let payload := py_split SLASH r in
  if pystr_eqb code (lit "CLIENT_STATUS_RESPONSE") then
    match payload with
    | p0 :: _ => broadcast_to_ui (EvClientUpdated (to_dict (with_status p0 s)))
                   (store_session cid (with_status p0 s) st)
    | [] => st
    end
  else if pystr_eqb code (lit "CHECK_VARIABLE_REQUEST") then
    match payload with
    | var_name :: _ =>
        send_to_client cid (lit "CHECK_VARIABLE_RESPONSE/" ++
          (if pystr_eqb var_name (lit "TICKET_CODE") then
             dict_get (ticket_code_map st)
               (dict_get (variables s) (lit "TICKET_TEXT") (lit "NONE")) (lit "NONE")
           else dict_get (variables s) var_name (lit "NONE"))) st
    | [] => st
    end
  else if pystr_eqb code (lit "CHANGE_VARIABLE_RESPONSE") then st
  else if pystr_eqb code (lit "REPORT_CLIENT_ERROR") then
    match payload with
    | _ :: _ =>
        broadcast_to_ui (EvClientLog (client_id s) (lit "ERROR: " ++ py_join SLASH payload))
          (store_session cid (append_log (lit "ERROR: " ++ py_join SLASH payload) s) st)
    | [] => st
    end
  else if pystr_eqb code (lit "REPORT_CLIENT_FINISH") then
    match payload with
    | result :: _ =>
        broadcast_to_ui (EvClientLog (client_id s) (lit "FINISHED: " ++ result))
          (store_session cid (append_log (lit "FINISHED: " ++ result) s) st)
    | [] => st
    end
  else if pystr_eqb code (lit "LOG_CLIENT_EVENT")
          || pystr_eqb code (lit "CLIENT_LOG_EVENT") then
    match payload with
    | _ :: _ =>
        broadcast_to_ui (EvClientLog (client_id s) (py_join SLASH payload))
          (store_session cid (append_log (py_join SLASH payload) s) st)
    | [] => st
    end
  else st.
Proof.
  intros Hs Hc. unfold handle_client_message. rewrite Hs, parse_message_code_sep by done.
  reflexivity.
Qed.

Ltac no_slash := vm_compute; set_solver.

(** X2: an error report [REPORT_CLIENT_ERROR/e] from a connected agent
    logs ["ERROR: " ++ e] with [e] exactly as sent (its ['/'] included,
    and also when [e] is empty), and broadcasts that log line. *)
Theorem report_error_logged_verbatim st cid s (e : pystr) :
  clients st !! cid = Some s ->
  handle_client_message st cid (lit "REPORT_CLIENT_ERROR/" ++ e) =
  broadcast_to_ui (EvClientLog (client_id s) (lit "ERROR: " ++ e))
    (store_session cid (append_log (lit "ERROR: " ++ e) s) st).
Proof.
  intros Hs.
  change (lit "REPORT_CLIENT_ERROR/" ++ e) with (lit "REPORT_CLIENT_ERROR" ++ SLASH :: e).
  rewrite (handle_with_payload st cid s) by (done || no_slash). cbv zeta.
  destruct (py_split SLASH e) as [|p ps] eqn:E; [by destruct (py_split_nonempty SLASH e)|].
  rewrite <- (py_join_split SLASH e), E. reflexivity.
Qed.

Lemma report_error_logged_verbatim_witness :
  logs <$> clients (handle_client_message one_client_state (lit "CLIENT_1")
                      (lit "REPORT_CLIENT_ERROR/" ++ lit "timeout/page 2"))
         !! lit "CLIENT_1" = Some [lit "ERROR: timeout/page 2"].
Proof.
  rewrite (report_error_logged_verbatim one_client_state (lit "CLIENT_1")
             (new_session (lit "CLIENT_1") 0) (lit "timeout/page 2"))
    by (vm_compute; reflexivity).
  vm_compute. reflexivity.
Defined.

(** X3: an event [LOG_CLIENT_EVENT/e] or [CLIENT_LOG_EVENT/e] from a
    connected agent appends [e] itself (['/'] included) to the session's
    logs and broadcasts it as a [client_log]. *)
Theorem log_event_logged_verbatim st cid s (e : pystr) :
  clients st !! cid = Some s ->
  handle_client_message st cid (lit "LOG_CLIENT_EVENT/" ++ e) =
    broadcast_to_ui (EvClientLog (client_id s) e)
      (store_session cid (append_log e s) st) /\
  handle_client_message st cid (lit "CLIENT_LOG_EVENT/" ++ e) =
    broadcast_to_ui (EvClientLog (client_id s) e)
      (store_session cid (append_log e s) st).
Proof.
  intros Hs.
  change (lit "LOG_CLIENT_EVENT/" ++ e) with (lit "LOG_CLIENT_EVENT" ++ SLASH :: e).
  change (lit "CLIENT_LOG_EVENT/" ++ e) with (lit "CLIENT_LOG_EVENT" ++ SLASH :: e).
  rewrite !(handle_with_payload st cid s) by (done || no_slash). cbv zeta.
  destruct (py_split SLASH e) as [|p ps] eqn:E; [by destruct (py_split_nonempty SLASH e)|].
  rewrite <- (py_join_split SLASH e), E. split; reflexivity.
Qed.

Lemma log_event_logged_verbatim_witness :
  logs <$> clients (handle_client_message one_client_state (lit "CLIENT_1")
                      (lit "CLIENT_LOG_EVENT/" ++ lit "cart/checkout"))
         !! lit "CLIENT_1" = Some [lit "cart/checkout"].
Proof.
  rewrite (proj2 (log_event_logged_verbatim one_client_state (lit "CLIENT_1")
             (new_session (lit "CLIENT_1") 0) (lit "cart/checkout")
             ltac:(vm_compute; reflexivity))).
  vm_compute. reflexivity.
Defined.

(** X4: a finish report [REPORT_CLIENT_FINISH/a], possibly followed by
    more ['/']-separated fields, logs ["FINISHED: " ++ a] and broadcasts
    it: only the first field is kept. *)
Theorem report_finished_first_field st cid s (a r : pystr) :
  clients st !! cid = Some s -> SLASH ∉ a ->
  let st' := broadcast_to_ui (EvClientLog (client_id s) (lit "FINISHED: " ++ a))
               (store_session cid (append_log (lit "FINISHED: " ++ a) s) st) in
  handle_client_message st cid (lit "REPORT_CLIENT_FINISH/" ++ a) = st' /\
  handle_client_message st cid (lit "REPORT_CLIENT_FINISH/" ++ a ++ SLASH :: r) = st'.
Proof.
  intros Hs Ha st'.
  change (lit "REPORT_CLIENT_FINISH/" ++ a) with (lit "REPORT_CLIENT_FINISH" ++ SLASH :: a).
  change (lit "REPORT_CLIENT_FINISH/" ++ a ++ SLASH :: r)
    with (lit "REPORT_CLIENT_FINISH" ++ SLASH :: a ++ SLASH :: r).
  rewrite !(handle_with_payload st cid s) by (done || no_slash). cbv zeta.
  rewrite py_split_no_sep, py_split_app_sep by done. split; reflexivity.
Qed.

Lemma report_finished_first_field_witness :
  logs <$> clients (handle_client_message one_client_state (lit "CLIENT_1")
                      (lit "REPORT_CLIENT_FINISH/" ++ lit "True" ++ SLASH :: lit "3 tickets"))
         !! lit "CLIENT_1" = Some [lit "FINISHED: True"].
Proof.
  rewrite (proj2 (report_finished_first_field one_client_state (lit "CLIENT_1")
             (new_session (lit "CLIENT_1") 0) (lit "True") (lit "3 tickets")
             ltac:(vm_compute; reflexivity) ltac:(no_slash))).
  vm_compute. reflexivity.
Defined.

(** X5: a status answer [CLIENT_STATUS_RESPONSE/x], possibly followed by
    more fields, sets the session's status to [x] (the first field) and
    broadcasts a [client_updated] event carrying the updated session. *)
Theorem status_response_sets_status st cid s (x r : pystr) :
  clients st !! cid = Some s -> SLASH ∉ x ->
  let st' := broadcast_to_ui (EvClientUpdated (to_dict (with_status x s)))
               (store_session cid (with_status x s) st) in
  handle_client_message st cid (lit "CLIENT_STATUS_RESPONSE/" ++ x) = st' /\
  handle_client_message st cid (lit "CLIENT_STATUS_RESPONSE/" ++ x ++ SLASH :: r) = st'.
Proof.
  intros Hs Hx st'.
  change (lit "CLIENT_STATUS_RESPONSE/" ++ x) with (lit "CLIENT_STATUS_RESPONSE" ++ SLASH :: x).
  change (lit "CLIENT_STATUS_RESPONSE/" ++ x ++ SLASH :: r)
    with (lit "CLIENT_STATUS_RESPONSE" ++ SLASH :: x ++ SLASH :: r).
  rewrite !(handle_with_payload st cid s) by (done || no_slash). cbv zeta.
  rewrite py_split_no_sep, py_split_app_sep by done. split; reflexivity.
Qed.

Lemma status_response_sets_status_witness :
  status <$> clients (handle_client_message one_client_state (lit "CLIENT_1")
                        (lit "CLIENT_STATUS_RESPONSE/" ++ lit "ACTIVE"))
         !! lit "CLIENT_1" = Some (lit "ACTIVE").
Proof.
  rewrite (proj1 (status_response_sets_status one_client_state (lit "CLIENT_1")
             (new_session (lit "CLIENT_1") 0) (lit "ACTIVE") []
             ltac:(vm_compute; reflexivity) ltac:(no_slash))).
  vm_compute. reflexivity.
Defined.

(** X6: a request [CHECK_VARIABLE_REQUEST/name] for a variable other than
    [TICKET_CODE] is answered to that agent with
    [CHECK_VARIABLE_RESPONSE/value], the value being the session's own
    variable, or [NONE] when the session has no such variable; the
    registry and the UI see nothing. *)
Theorem check_variable_reply st cid s (name : pystr) :
  clients st !! cid = Some s -> SLASH ∉ name -> name <> lit "TICKET_CODE" ->
  let value := match variables s !! name with Some v => v | None => lit "NONE" end in
  handle_client_message st cid (lit "CHECK_VARIABLE_REQUEST/" ++ name) =
  send_to_client cid (lit "CHECK_VARIABLE_RESPONSE/" ++ value) st /\
  clients (handle_client_message st cid (lit "CHECK_VARIABLE_REQUEST/" ++ name)) = clients st /\
  ui_events (handle_client_message st cid (lit "CHECK_VARIABLE_REQUEST/" ++ name)) = ui_events st.
Proof.
  intros Hs Hn Ht value.
  assert (E : handle_client_message st cid (lit "CHECK_VARIABLE_REQUEST/" ++ name) =
              send_to_client cid (lit "CHECK_VARIABLE_RESPONSE/" ++ value) st).
  { change (lit "CHECK_VARIABLE_REQUEST/" ++ name)
      with (lit "CHECK_VARIABLE_REQUEST" ++ SLASH :: name).
    rewrite (handle_with_payload st cid s) by (done || no_slash). cbv zeta.
    rewrite py_split_no_sep by done. simpl.
    assert (pystr_eqb name (lit "TICKET_CODE") = false) as ->
      by (unfold pystr_eqb; by rewrite bool_decide_false).
    reflexivity. }
  rewrite E. split; [done|]. split; [apply clients_send_to_client|].
  unfold send_to_client. by destruct (pack_message _).
Qed.

Lemma check_variable_reply_witness :
  sent (handle_client_message one_client_state (lit "CLIENT_1")
          (lit "CHECK_VARIABLE_REQUEST/" ++ lit "BOT_ID")) =
  [(lit "CLIENT_1", ljust FRAME_SIZE (lit "CHECK_VARIABLE_RESPONSE/NONE"))].
Proof.
  rewrite (proj1 (check_variable_reply one_client_state (lit "CLIENT_1")
             (new_session (lit "CLIENT_1") 0) (lit "BOT_ID")
             ltac:(vm_compute; reflexivity) ltac:(no_slash)
             ltac:(vm_compute; discriminate))).
  vm_compute. reflexivity.
Defined.

(* ================================================================= *)
(** ** What an agent message can change *)

Lemma same_identity_refl s : same_identity s s.
Proof. done. Qed.

Lemma handle_client_message_shape st cid msg :
  handle_client_message st cid msg = st \/
  exists s s' evs out,
    handle_client_message st cid msg =
    mkState (<[cid := s']> (clients st)) (ticket_code_map st) (server_status st)
            (client_counter st) (ui_events st ++ evs) (ui_replies st) (sent st ++ out) /\
    clients st !! cid = Some s /\ same_identity s s' /\ (length evs <= 1)%nat.
Proof.
  unfold handle_client_message.
  destruct (clients st !! cid) as [s|] eqn:Hs; [|by left].
  destruct (parse_message msg) as [code payload].
  repeat case_match; try (left; reflexivity);
    try (right; eexists s, _, [_], []; split; [rewrite app_nil_r; reflexivity|];
         split_and!; [done|done|simpl; lia]).
  all: unfold send_to_client; destruct (pack_message _) as [f|]; [|by left].
  all: right; exists s, s, [], [(cid, f)];
    rewrite insert_id, app_nil_r by done; split_and!; done || simpl; lia.
Qed.

(** X7: whatever an agent sends, [handle_client_message] keeps the ticket
    map, the server status, the id counter and the UI replies; it never adds
    or removes a session and never touches another agent's session; in the
    sender's session it may change only the status and the logs (never the
    variables, the bot id or [last_seen]); and it adds at most one UI
    event. *)
Theorem handle_client_message_frame st cid msg :
  let st' := handle_client_message st cid msg in
  ticket_code_map st' = ticket_code_map st /\
  server_status st' = server_status st /\
  client_counter st' = client_counter st /\
  ui_replies st' = ui_replies st /\
  (forall c, is_Some (clients st' !! c) <-> is_Some (clients st !! c)) /\
  (forall c, c <> cid -> clients st' !! c = clients st !! c) /\
  (forall s', clients st' !! cid = Some s' ->
     exists s, clients st !! cid = Some s /\ same_identity s s') /\
  (exists evs, ui_events st' = ui_events st ++ evs /\ (length evs <= 1)%nat).
Proof.
  intros st'. subst st'.
  destruct (handle_client_message_shape st cid msg)
    as [-> | (s & s' & evs & out & -> & Hs & Hid & Hl)].
  - split_and!; [done..| |].
    + intros s' H. exists s'. split; [done|]. apply same_identity_refl.
    + exists []. rewrite app_nil_r. split; [done|simpl; lia].
  - simpl. split_and!; [done..| | | |].
    + intros c. destruct (decide (c = cid)) as [->|Hc].
      * rewrite lookup_insert_eq, Hs. done.
      * by rewrite lookup_insert_ne by done.
    + intros c Hc. by rewrite lookup_insert_ne by done.
    + intros s'' H. rewrite lookup_insert_eq in H. injection H as <-.
      exists s. split; [done|].
      destruct Hid as (? & ? & ? & ?). done.
    + by exists evs.
Qed.

Lemma client_loop_other st cid frames c :
  c <> cid -> clients (client_loop cid frames st) !! c = clients st !! c.
Proof.
  intros Hc. revert st. induction frames as [|[t data] frames IH]; intros st; [done|].
  simpl. destruct data as [|b bs]; [done|].
  set (st1 := match clients st !! cid with
              | Some session => store_session cid (with_last_seen t session) st
              | None => st end).
  assert (E1 : clients st1 !! c = clients st !! c).
  { subst st1. destruct (clients st !! cid); [|done].
    simpl. by rewrite lookup_insert_ne by done. }
  destruct (unpack_message (b :: bs)) as [|m ms].
  - by rewrite IH.
  - rewrite IH, <- E1.
    destruct (handle_client_message_shape st1 cid (m :: ms))
      as [-> | (s & s' & evs & out & -> & _)]; [done|].
    simpl. by rewrite lookup_insert_ne by done.
Qed.

Lemma client_loop_fields st cid frames :
  ticket_code_map (client_loop cid frames st) = ticket_code_map st /\
  server_status (client_loop cid frames st) = server_status st /\
  client_counter (client_loop cid frames st) = client_counter st.
Proof.
  revert st. induction frames as [|[t data] frames IH]; intros st; [done|].
  simpl. destruct data as [|b bs]; [done|].
  set (st1 := match clients st !! cid with
              | Some session => store_session cid (with_last_seen t session) st
              | None => st end).
  assert (E1 : ticket_code_map st1 = ticket_code_map st /\
               server_status st1 = server_status st /\
               client_counter st1 = client_counter st).
  { subst st1. by destruct (clients st !! cid). }
  destruct (unpack_message (b :: bs)) as [|m ms].
  - destruct (IH st1) as (? & ? & ?). destruct E1 as (? & ? & ?). split_and!; congruence.
  - destruct (IH (handle_client_message st1 cid (m :: ms))) as (? & ? & ?).
    destruct E1 as (? & ? & ?).
    destruct (handle_client_message_shape st1 cid (m :: ms))
      as [E | (s & s' & evs & out & E & _)]; rewrite E in *; simpl in *;
      split_and!; congruence.
Qed.

(** X8: one whole agent connection, however it ends and whatever the agent
    sent, leaves the session registry as it found it (the new session is
    added, then removed in the [finally] block), keeps the ticket map and
    the server status, and uses up exactly one id. *)
Theorem handle_client_restores_registry st now frames e :
  clients st !! fst (get_next_client_id st) = None ->
  let st' := handle_client st now frames e in
  clients st' = clients st /\
  ticket_code_map st' = ticket_code_map st /\
  server_status st' = server_status st /\
  client_counter st' = S (client_counter st).
Proof.
  intros Hfresh st'. subst st'. unfold handle_client. simpl in *.
  set (cid := client_id_str (S (client_counter st))) in *.
  set (st0 := broadcast_to_ui _ (store_session cid _ _)).
  destruct (client_loop_fields st0 cid frames) as (E1 & E2 & E3).
  assert (Hc : delete cid (clients (client_loop cid frames st0)) = clients st).
  { apply map_eq. intros c. destruct (decide (c = cid)) as [->|Hc].
    - by rewrite lookup_delete_eq.
    - rewrite lookup_delete_ne, client_loop_other by done. simpl.
      by rewrite lookup_insert_ne by done. }
  destruct (wait_closed_raises e); simpl; split_and!; done.
Qed.

Lemma handle_client_restores_registry_witness :
  clients (handle_client one_client_state 5
             [(6, ljust FRAME_SIZE (lit "LOG_CLIENT_EVENT/hi"))] ConnectionFailed)
  = clients one_client_state.
Proof.
  apply (handle_client_restores_registry one_client_state 5 _ ConnectionFailed).
  vm_compute. reflexivity.
Defined.

(* ================================================================= *)
(** ** Operator commands *)

Lemma with_variable_idem n v s :
  with_variable n v (with_variable n v s) = with_variable n v s.
Proof. unfold with_variable; simpl. by rewrite insert_insert_eq. Qed.

Lemma is_Some_insert_present (m : gmap pystr ClientSession) k x c :
  is_Some (m !! k) -> is_Some (<[k := x]> m !! c) <-> is_Some (m !! c).
Proof.
  intros Hk. destruct (decide (c = k)) as [->|Hc].
  - rewrite lookup_insert_eq. split; [done|eauto].
  - by rewrite lookup_insert_ne by done.
Qed.

Lemma apply_variable_loop_clients cids n v st c :
  clients (apply_variable_loop cids n v st) !! c =
  if bool_decide (c ∈ cids) then with_variable n v <$> clients st !! c
  else clients st !! c.
Proof.
  revert st. induction cids as [|a cids IH]; intros st; simpl; [done|].
  destruct (clients st !! a) as [s|] eqn:Ha.
  - rewrite IH, clients_send_to_client. simpl.
    destruct (decide (c = a)) as [->|Hc].
    + rewrite lookup_insert_eq, Ha, (bool_decide_true (a ∈ a :: cids)) by set_solver.
      destruct (bool_decide (a ∈ cids)); simpl; [by rewrite with_variable_idem|done].
    + rewrite lookup_insert_ne by done.
      by rewrite (bool_decide_ext (c ∈ cids) (c ∈ a :: cids)) by set_solver.
  - rewrite IH. destruct (decide (c = a)) as [->|Hc].
    + rewrite Ha. by repeat case_bool_decide.
    + case_bool_decide; case_bool_decide; set_solver.
Qed.

Lemma apply_variable_loop_sent cids n v st :
  sent (apply_variable_loop cids n v st) =
  sent st ++
  match pack_message (lit "CHANGE_VARIABLE_REQUEST/" ++ n ++ SLASH :: v) with
  | Some f => map (fun c => (c, f)) (filter (fun c => is_Some (clients st !! c)) cids)
  | None => []
  end.
Proof.
  revert st. induction cids as [|a cids IH]; intros st; simpl.
  - by destruct (pack_message _); rewrite app_nil_r.
  - destruct (clients st !! a) as [s|] eqn:Ha.
    + rewrite IH, clients_send_to_client. simpl.
      rewrite filter_cons_True by (rewrite Ha; eauto).
      rewrite (list_filter_iff _ (fun c => is_Some (clients st !! c)))
        by (intros c; apply is_Some_insert_present; rewrite Ha; eauto).
      unfold send_to_client. destruct (pack_message _); simpl; [|done].
      by rewrite <- app_assoc.
    + rewrite IH, filter_cons_False by (rewrite Ha; by intros [? ?]). done.
Qed.

Lemma apply_variable_loop_fields cids n v st :
  ticket_code_map (apply_variable_loop cids n v st) = ticket_code_map st /\
  server_status (apply_variable_loop cids n v st) = server_status st /\
  ui_events (apply_variable_loop cids n v st) = ui_events st.
Proof.
  revert st. induction cids as [|a cids IH]; intros st; simpl; [done|].
  destruct (clients st !! a); rewrite !(proj1 (IH _)), (proj1 (proj2 (IH _))),
    (proj2 (proj2 (IH _))); [|done].
  unfold send_to_client. by destruct (pack_message _).
Qed.

(** X9: [apply_variable] writes the variable into the session of every
    listed agent that is connected (ids not connected are skipped, a
    repeated id is harmless), leaves every other session as it was, sends
    one [CHANGE_VARIABLE_REQUEST/name/value] frame to each listed connected
    agent in the order of the list (none when the text cannot be encoded),
    keeps the ticket map and the server status, and ends with one
    [clients_list] broadcast of the updated registry. *)
Theorem apply_variable_command st cids n v :
  let st' := handle_ui_command st (UiApplyVariable cids n v) in
  (forall c, clients st' !! c =
     if bool_decide (c ∈ cids) then with_variable n v <$> clients st !! c
     else clients st !! c) /\
  sent st' = sent st ++
    match pack_message (lit "CHANGE_VARIABLE_REQUEST/" ++ n ++ SLASH :: v) with
    | Some f => map (fun c => (c, f)) (filter (fun c => is_Some (clients st !! c)) cids)
    | None => []
    end /\
  ticket_code_map st' = ticket_code_map st /\
  server_status st' = server_status st /\
  ui_events st' = ui_events st ++ [EvClientsList (clients_views st')].
Proof.
  intros st'. subst st'. simpl.
  destruct (apply_variable_loop_fields cids n v st) as (E1 & E2 & E3).
  split_and!.
  - intros c. apply apply_variable_loop_clients.
  - apply apply_variable_loop_sent.
  - done.
  - done.
  - by rewrite E3.
Qed.

Lemma send_to_clients_state cids msg st :
  let st' := send_to_clients cids msg st in
  clients st' = clients st /\ ticket_code_map st' = ticket_code_map st /\
  server_status st' = server_status st /\ ui_events st' = ui_events st /\
  sent st' = sent st ++
    match pack_message msg with
    | Some f => map (fun c => (c, f)) (filter (fun c => is_Some (clients st !! c)) cids)
    | None => []
    end.
Proof.
  revert st. induction cids as [|a cids IH]; intros st; simpl.
  - split_and!; try done. by destruct (pack_message _); rewrite app_nil_r.
  - destruct (clients st !! a) as [s|] eqn:Ha.
    + destruct (IH (send_to_client a msg st)) as (C & T & S & U & Se).
      rewrite filter_cons_True by (rewrite Ha; eauto).
      unfold send_to_client in *. destruct (pack_message msg); simpl in *.
      * split_and!; try done. rewrite Se. by rewrite <- app_assoc.
      * done.
    + destruct (IH st) as (C & T & S & U & Se).
      rewrite filter_cons_False by (rewrite Ha; by intros [? ?]). done.
Qed.

(** X10: [send_login] and [send_buy] send [CLIENT_LOGIN] (resp.
    [CLIENT_BUY_TICKET]) to each listed agent that is connected, in the
    order of the list and once per occurrence, skip the other ids, and
    change nothing else: no session, no ticket code, no UI event. *)
Theorem send_login_buy_commands st cids :
  forall msg data, (msg, data) = (lit "CLIENT_LOGIN", UiSendLogin cids) \/
                   (msg, data) = (lit "CLIENT_BUY_TICKET", UiSendBuy cids) ->
  let st' := handle_ui_command st data in
  clients st' = clients st /\ ticket_code_map st' = ticket_code_map st /\
  ui_events st' = ui_events st /\
  sent st' = sent st ++
    map (fun c => (c, ljust FRAME_SIZE msg)) (filter (fun c => is_Some (clients st !! c)) cids).
Proof.
  intros msg data H st'. subst st'.
  destruct H as [H|H]; injection H as -> ->; simpl.
  - destruct (send_to_clients_state cids (lit "CLIENT_LOGIN") st) as (C & T & _ & U & Se).
    split_and!; try done; rewrite Se; reflexivity.
  - destruct (send_to_clients_state cids (lit "CLIENT_BUY_TICKET") st) as (C & T & _ & U & Se).
    split_and!; try done; rewrite Se; reflexivity.
Qed.

Lemma send_login_buy_commands_witness :
  sent (handle_ui_command one_client_state
          (UiSendLogin [lit "CLIENT_1"; lit "CLIENT_9"; lit "CLIENT_1"])) =
  [(lit "CLIENT_1", ljust FRAME_SIZE (lit "CLIENT_LOGIN"));
   (lit "CLIENT_1", ljust FRAME_SIZE (lit "CLIENT_LOGIN"))].
Proof.
  rewrite (proj2 (proj2 (proj2 (send_login_buy_commands one_client_state
             [lit "CLIENT_1"; lit "CLIENT_9"; lit "CLIENT_1"]
             (lit "CLIENT_LOGIN") _ (or_introl eq_refl))))).
  vm_compute. reflexivity.
Defined.

(** X11: a [set_ticket_code] command with a nonempty ticket text [t] and
    a nonempty code [c] maps [t] to [c] (replacing any earlier code for
    [t], keeping the other entries), broadcasts the whole new map once,
    and touches neither the sessions nor the agents. *)
Theorem set_ticket_code_command st t c :
  t <> [] -> c <> [] ->
  let st' := handle_ui_command st (UiSetTicketCode (Some t) (Some c)) in
  ticket_code_map st' = <[t := c]> (ticket_code_map st) /\
  ui_events st' = ui_events st ++ [EvTicketMapChanged (<[t := c]> (ticket_code_map st))] /\
  clients st' = clients st /\ sent st' = sent st /\ server_status st' = server_status st.
Proof.
  intros Ht Hc st'. subst st'. simpl.
  destruct t as [|x t]; [done|]. destruct c as [|y c]; [done|]. simpl. done.
Qed.

Lemma set_ticket_code_command_witness :
  ticket_code_map (handle_ui_command
    (handle_ui_command one_client_state (UiSetTicketCode (Some (lit "VIP")) (Some (lit "A1"))))
    (UiSetTicketCode (Some (lit "VIP")) (Some (lit "B2")))) !! lit "VIP" = Some (lit "B2").
Proof.
  rewrite (proj1 (set_ticket_code_command _ (lit "VIP") (lit "B2")
             ltac:(discriminate) ltac:(discriminate))).
  by rewrite lookup_insert_eq.
Defined.

(** X13: [pack_message] fails (the [UnicodeEncodeError] of [encode])
    exactly when the text holds a code point that is not a Unicode scalar
    value (a lone surrogate); otherwise the frame is always exactly 1024
    bytes.  [send_to_client] swallows that error: nothing is sent and the
    state is unchanged. *)
Theorem pack_message_frame (msg : pystr) :
  (pack_message msg = None <-> Exists (fun c => is_scalar c = false) msg) /\
  (forall f, pack_message msg = Some f -> length f = FRAME_SIZE) /\
  (forall cid st, pack_message msg = None -> send_to_client cid msg st = st).
Proof.
  split_and!.
  - unfold pack_message.
    assert (E : utf8_encode msg = None <-> Exists (fun c => is_scalar c = false) msg).
    { induction msg as [|c r IH]; simpl.
      - split; [done|]. inversion 1.
      - rewrite Exists_cons. destruct (is_scalar c) eqn:Hc.
        + destruct (utf8_encode r); rewrite <- IH; naive_solver.
        + naive_solver. }
    rewrite <- E. destruct (utf8_encode msg); naive_solver.
  - intros f. unfold pack_message. destruct (utf8_encode msg) as [bs|]; [|done].
    intros [= <-]. unfold ljust.
    destruct (Nat.ltb_spec FRAME_SIZE (length bs)).
    + rewrite length_app, length_replicate, length_take. lia.
    + rewrite length_app, length_replicate. lia.
  - intros cid st H. unfold send_to_client. by rewrite H.
Qed.

(* ================================================================= *)
(** ** The read loop *)

Lemma rstrip_nul_replicate n : rstrip_nul (replicate n 0) = [].
Proof.
  unfold rstrip_nul. rewrite reverse_replicate.
  rewrite <- (app_nil_r (replicate n 0)), drop_nuls_pad. done.
Qed.

(** X15: a frame of NUL bytes only (an empty message) refreshes the
    session's [last_seen] with the time it was read and is otherwise
    skipped: no handler runs, nothing is logged, sent or broadcast. *)
Theorem nul_frame_refreshes_only cid t n rest st s :
  clients st !! cid = Some s ->
  client_loop cid ((t, replicate (S n) 0) :: rest) st =
  client_loop cid rest (store_session cid (with_last_seen t s) st).
Proof.
  intros Hs.
  assert (U : unpack_message (replicate (S n) 0) = [])
    by (unfold unpack_message; by rewrite rstrip_nul_replicate).
  simpl in U |- *. rewrite Hs, U. done.
Qed.

Lemma nul_frame_refreshes_only_witness :
  last_seen <$> clients (client_loop (lit "CLIENT_1")
    [(7, replicate 1024 0)] one_client_state) !! lit "CLIENT_1" = Some 7.
Proof.
  rewrite (nul_frame_refreshes_only (lit "CLIENT_1") 7 1023 [] one_client_state
             (new_session (lit "CLIENT_1") 0) ltac:(vm_compute; reflexivity)).
  vm_compute. reflexivity.
Defined.


Lemma pack_message_frame_witness :
  send_to_client (lit "CLIENT_1") [0xD800] one_client_state = one_client_state.
Proof.
  apply (proj2 (proj2 (pack_message_frame [0xD800]))). reflexivity.
Defined.

(** X21: the agent frames what it sends like [pack_message] as long as
    the UTF-8 encoding fits in 1024 bytes, but it never truncates: a
    longer encoding is written whole, so it is not one 1024-byte frame
    (the hub reads it as several). *)
Theorem agent_frame_vs_pack_message (msg bs : pystr) :
  utf8_encode msg = Some bs ->
  ((length bs <= FRAME_SIZE)%nat -> agent_frame msg = pack_message msg) /\
  ((FRAME_SIZE < length bs)%nat ->
     agent_frame msg = Some bs /\ length bs <> FRAME_SIZE).
Proof.
  intros Henc. unfold agent_frame. rewrite Henc. split.
  - intros Hle. by rewrite (pack_message_short msg bs).
  - intros Hlt. unfold ljust.
    rewrite (proj2 (Nat.sub_0_le FRAME_SIZE (length bs))) by lia.
    rewrite app_nil_r. split; [done|lia].
Qed.

Lemma agent_frame_vs_pack_message_witness :
  length <$> agent_frame (replicate 1500 0x61) = Some 1500%nat.
Proof.
  rewrite (proj1 (proj2 (agent_frame_vs_pack_message (replicate 1500 0x61)
             (replicate 1500 0x61) ltac:(vm_compute; reflexivity))
             ltac:(rewrite length_replicate; unfold FRAME_SIZE; lia))).
  vm_compute. reflexivity.
Defined.

(* ================================================================= *)
(** ** Ill-formed stretches between well-formed text *)

Ltac ranges_true :=
  unfold in_range; repeat (apply andb_true_intro; split);
  try reflexivity; apply Z.leb_le; lia.

Ltac try_row row := exists row; split; [simpl; tauto | cbn [fits]; ranges_true].

Ltac swf_true :=
  unfold starts_well_formed; apply existsb_exists;
  first [ try_row [(0x00, 0x7F)]
        | try_row [(0xC2, 0xDF); (0x80, 0xBF)]
        | try_row [(0xE0, 0xE0); (0xA0, 0xBF); (0x80, 0xBF)]
        | try_row [(0xE1, 0xEC); (0x80, 0xBF); (0x80, 0xBF)]
        | try_row [(0xED, 0xED); (0x80, 0x9F); (0x80, 0xBF)]
        | try_row [(0xEE, 0xEF); (0x80, 0xBF); (0x80, 0xBF)]
        | try_row [(0xF0, 0xF0); (0x90, 0xBF); (0x80, 0xBF); (0x80, 0xBF)]
        | try_row [(0xF1, 0xF3); (0x80, 0xBF); (0x80, 0xBF); (0x80, 0xBF)]
        | try_row [(0xF4, 0xF4); (0x80, 0x8F); (0x80, 0xBF); (0x80, 0xBF)] ].

(** Where no well-formed sequence starts, the decoder drops one byte. *)
Lemma decode_drop_head b0 r :
  starts_well_formed (b0 :: r) = false ->
  utf8_decode_ignore (b0 :: r) = utf8_decode_ignore r.
Proof.
  intros H. cbn [utf8_decode_ignore].
  repeat case_match; try reflexivity; zhyps;
    exfalso; apply Bool.diff_false_true; rewrite <- H;
    destruct (Z.le_gt_cases b0 0xEC); swf_true.
Qed.

(** A row of continuation ranges that fits [x ++ y] but not [x] reads
    into [y], whose first byte is then a continuation byte. *)
Lemma fits_app_cont row x y :
  cont_row row = true -> fits row (x ++ y) = true -> fits row x = false ->
  exists c y', y = c :: y' /\ 0x80 <= c <= 0xBF.
Proof.
  revert row. induction x as [|a x IH]; intros row Hr Hxy Hx.
  - destruct row as [|[lo hi] row]; [done|]. destruct y as [|c y]; [done|].
    simpl in Hxy, Hr. exists c, y. split; [done|]. zhyps. lia.
  - destruct row as [|[lo hi] row]; [done|]. simpl in Hxy, Hx, Hr.
    apply andb_prop in Hxy as [Ha Hxy]. rewrite Ha in Hx. simpl in Hx.
    apply andb_prop in Hr as [_ Hr]. by apply (IH row).
Qed.

Lemma starts_well_formed_app b0 r y :
  starts_well_formed (b0 :: r ++ y) = true -> starts_well_formed (b0 :: r) = false ->
  exists c y', y = c :: y' /\ 0x80 <= c <= 0xBF.
Proof.
  unfold starts_well_formed. intros H1 H2.
  apply existsb_exists in H1 as (row & Hin & Hf).
  assert (Hf2 : fits row (b0 :: r) = false).
  { destruct (fits row (b0 :: r)) eqn:E; [|done].
    rewrite <- H2. symmetry. apply existsb_exists. by exists row. }
  assert (Hc : forall row, In row table_3_7 -> cont_row (tail row) = true).
  { intros rw Hrw. repeat (destruct Hrw as [<-|Hrw]; [reflexivity|]). done. }
  specialize (Hc row Hin).
  destruct row as [|[lo hi] row]; [done|]. simpl in Hf, Hf2, Hc.
  apply andb_prop in Hf as [Ha Hf]. rewrite Ha in Hf2. simpl in Hf2.
  by apply (fits_app_cont row r y).
Qed.

(** An ill-formed stretch followed by bytes that do not start with a
    continuation byte decodes to nothing: it is dropped whole. *)
Lemma decode_ill_formed_app x y :
  no_well_formed x = true ->
  (forall c y', y = c :: y' -> ~ (0x80 <= c <= 0xBF)) ->
  utf8_decode_ignore (x ++ y) = utf8_decode_ignore y.
Proof.
  intros Hx Hy. induction x as [|b0 r IH]; [done|].
  simpl in Hx. apply andb_prop in Hx as [Hb Hr]. apply negb_true_iff in Hb.
  change ((b0 :: r) ++ y) with (b0 :: (r ++ y)).
  rewrite decode_drop_head; [by apply IH|].
  destruct (starts_well_formed (b0 :: r ++ y)) eqn:E; [|done].
  destruct (starts_well_formed_app b0 r y E Hb) as (c & y' & -> & Hc).
  exfalso. by apply (Hy c y').
Qed.

Lemma decode_encode_app s bs z :
  utf8_encode s = Some bs ->
  utf8_decode_ignore (bs ++ z) = s ++ utf8_decode_ignore z.
Proof.
  revert bs. induction s as [|c s IH]; simpl; intros bs Henc.
  - by injection Henc as <-.
  - destruct (is_scalar c) eqn:Hc; [|discriminate].
    destruct (utf8_encode s) as [bs'|] eqn:Hs; [|discriminate].
    injection Henc as <-. rewrite <- app_assoc, decode_encode_char by done.
    f_equal. by apply IH.
Qed.

Lemma encode_head_not_cont t bt :
  utf8_encode t = Some bt ->
  forall c y', bt = c :: y' -> ~ (0x80 <= c <= 0xBF).
Proof.
  destruct t as [|ch t]; simpl; intros Henc c y' E.
  - injection Henc as <-. discriminate.
  - destruct (is_scalar ch) eqn:Hc; [|discriminate].
    destruct (utf8_encode t); [|discriminate]. injection Henc as <-.
    apply is_scalar_spec in Hc as [[H1 H2] _].
    unfold utf8_encode_char in E.
    assert (0 <= ch / 64) by (apply Z.div_pos; lia).
    assert (0 <= ch / 4096) by (apply Z.div_pos; lia).
    assert (0 <= ch / 262144) by (apply Z.div_pos; lia).
    assert (2 <= ch / 64 \/ ch < 0x80) by
      (destruct (Z.ltb_spec ch 0x80); [right; lia|left; apply Z.div_le_lower_bound; lia]).
    destruct (Z.ltb_spec ch 0x80); [|destruct (Z.ltb_spec ch 0x800);
      [|destruct (Z.ltb_spec ch 0x10000)]]; simpl in E; injection E as <- _; lia.
Qed.

Lemma no_well_formed_no_nul x : no_well_formed x = true -> 0 ∉ x.
Proof.
  induction x as [|b r IH]; simpl; [set_solver|].
  intros H. apply andb_prop in H as [Hb Hr]. rewrite elem_of_cons.
  intros [<-|Hin]; [discriminate|by apply IH].
Qed.

(** C4 (amended): [unpack_message] is total; it drops trailing NUL bytes
    (padding never changes the result), drops every byte that cannot
    start a UTF-8 sequence instead of replacing it, drops any ill-formed
    stretch (one in which no well-formed sequence of Table 3-7 starts:
    stray continuation bytes, truncated sequences, overlong or surrogate
    forms, bytes C0, C1, F5-FF) wherever it stands, keeping the
    well-formed text on both sides unchanged, returns only scalar values,
    and produces U+FFFD only when the frame contains a byte 0xEF (the
    first byte of U+FFFD's own encoding). *)
Theorem C4_unpack_strips_and_ignores :
  (forall (f : pybytes) (k : nat),
      unpack_message (f ++ replicate k 0) = unpack_message f) /\
  (forall (b : Z) (f : pybytes),
      in_range 0x80 0xC1 b || in_range 0xF5 0xFF b = true ->
      unpack_message (b :: f) = unpack_message f) /\
  (forall (s t : pystr) (bs bt x : pybytes) (k : nat),
      utf8_encode s = Some bs -> utf8_encode t = Some bt ->
      no_well_formed x = true -> last (s ++ t) <> Some 0 ->
      unpack_message (bs ++ x ++ bt ++ replicate k 0) = s ++ t) /\
  (forall f : pybytes, Forall (fun c => is_scalar c = true) (unpack_message f)) /\
  (forall f : pybytes, 0xEF ∉ f -> 0xFFFD ∉ unpack_message f).
Proof.
  split; [|split; [|split; [|split]]].
  - intros f k. unfold unpack_message. by rewrite rstrip_pad.
  - intros b f Hb. unfold unpack_message.
    apply orb_true_iff in Hb. unfold in_range in Hb.
    assert (0x80 <= b <= 0xC1 \/ 0xF5 <= b <= 0xFF) as Hr
      by (destruct Hb as [Hb|Hb]; apply andb_prop in Hb as [H1 H2];
          apply Z.leb_le in H1, H2; lia).
    rewrite rstrip_cons by lia. cbn [utf8_decode_ignore].
    unfold in_range. zbool; reflexivity.
  - intros s t bs bt x k Hs Ht Hx Hl. unfold unpack_message.
    rewrite !app_assoc, rstrip_pad, <- !app_assoc.
    rewrite rstrip_last.
    + rewrite (decode_encode_app s bs) by done.
      rewrite decode_ill_formed_app by (done || by apply (encode_head_not_cont t bt)).
      by rewrite (decode_encode t bt).
    + destruct t as [|ct t] using rev_ind.
      * simpl in Ht. injection Ht as <-. rewrite app_nil_r.
        destruct x as [|b x] using rev_ind.
        -- rewrite app_nil_r. apply (encode_last s); [done|by rewrite app_nil_r in Hl].
        -- rewrite app_assoc, last_app. simpl. intros [= ->].
           apply (no_well_formed_no_nul (x ++ [0])); [done|]. set_solver.
      * assert (Hbt : last bt <> Some 0).
        { apply (encode_last (t ++ [ct])); [done|].
          rewrite app_assoc, last_app in Hl. by rewrite last_app. }
        assert (Hne : bt <> []).
        { intros ->. pose proof (decode_encode _ _ Ht) as D. simpl in D.
          destruct t; discriminate. }
        rewrite app_assoc, last_app.
        destruct (last bt) eqn:E; [done|]. by apply last_None in E.
  - intros f. apply decode_scalars.
  - intros f Hf. unfold unpack_message. apply decode_no_replacement.
    intros Hin. apply Hf. unfold rstrip_nul in Hin.
    rewrite elem_of_reverse in Hin.
    assert (Hsub : forall x, drop_nuls x ⊆ x).
    { induction x as [|y x IH]; simpl; [set_solver|].
      destruct (y =? 0); set_solver. }
    apply Hsub in Hin. by rewrite elem_of_reverse in Hin.
Qed.

(** A surrogate form, a truncated three-byte sequence and a byte C0
    between "a" and "b" are dropped. *)
Lemma C4_witness :
  unpack_message ([0x61] ++ [0xED; 0xA0; 0x80; 0xE2; 0x82; 0xC0] ++ [0x62] ++
                  replicate 1015 0) = [0x61; 0x62] /\
  unpack_message (0xC0 :: 0x41 :: replicate 1022 0) = unpack_message (0x41 :: replicate 1022 0).
Proof.
  split.
  - apply (proj1 (proj2 (proj2 C4_unpack_strips_and_ignores)) [0x61] [0x62]);
      reflexivity || (simpl; discriminate).
  - apply (proj1 (proj2 C4_unpack_strips_and_ignores)). reflexivity.
Defined.

(** X12: [toggle_server] sets the server status to [ACTIVE] when it was
    [INACTIVE] and to [INACTIVE] otherwise, so the status is one of the
    two afterwards and two toggles restore an [ACTIVE] or [INACTIVE]
    status; each toggle broadcasts the new status once and changes
    nothing else (sessions, ticket map, id counter, UI replies, frames). *)
Theorem toggle_server_command st :
  let st' := handle_ui_command st UiToggleServer in
  server_status st' =
    (if bool_decide (server_status st = lit "INACTIVE") then lit "ACTIVE"
     else lit "INACTIVE") /\
  (server_status st' = lit "ACTIVE" \/ server_status st' = lit "INACTIVE") /\
  ui_events st' = ui_events st ++ [EvServerStatus (server_status st')] /\
  clients st' = clients st /\ ticket_code_map st' = ticket_code_map st /\
  client_counter st' = client_counter st /\ ui_replies st' = ui_replies st /\
  sent st' = sent st /\
  (server_status st = lit "ACTIVE" \/ server_status st = lit "INACTIVE" ->
   server_status (handle_ui_command st' UiToggleServer) = server_status st).
Proof.
  intros st'. subst st'. simpl. unfold pystr_eqb.
  split_and!; try done.
  - case_bool_decide; [left|right]; done.
  - intros [-> | ->]; reflexivity.
Qed.

Lemma toggle_server_command_witness :
  server_status (handle_ui_command (handle_ui_command one_client_state UiToggleServer)
                   UiToggleServer) = lit "INACTIVE".
Proof.
  destruct (toggle_server_command one_client_state) as (_ & _ & _ & _ & _ & _ & _ & _ & H).
  apply H. right. reflexivity.
Defined.

(* ================================================================= *)
(** ** Operator-pushed variables and agent log lines *)

Lemma apply_variable_loop_app pre l var val st :
  apply_variable_loop (pre ++ l) var val st =
  apply_variable_loop l var val (apply_variable_loop pre var val st).
Proof.
  revert st. induction pre as [|c pre IH]; intros st; simpl; [done|]. apply IH.
Qed.

(** C1 (amended): [apply_variable] writes the new value into the
    registry's copy of the variable of each targeted connected agent; the
    frame [CHANGE_VARIABLE_REQUEST/name/value] to an agent is sent from a
    state whose registry copy already holds the new value (the write comes
    first); and a [CHANGE_VARIABLE_RESPONSE] (SUCCESS, FAIL or anything
    else) changes nothing in the hub. *)
Theorem C1_apply_variable_writes_before_ack (st : ServerState) (cids : list pystr)
    (var val : pystr) :
  let msg := lit "CHANGE_VARIABLE_REQUEST/" ++ var ++ SLASH :: val in
  let st' := handle_ui_command st (UiApplyVariable cids var val) in
  (forall c s, c ∈ cids -> clients st !! c = Some s ->
     exists s', clients st' !! c = Some s' /\ variables s' !! var = Some val) /\
  (forall pre c post s, cids = pre ++ c :: post -> clients st !! c = Some s ->
     exists st1 s1,
       clients st1 !! c = Some s1 /\ variables s1 !! var = Some val /\
       st' = (let st2 := apply_variable_loop post var val (send_to_client c msg st1) in
              broadcast_to_ui (EvClientsList (clients_views st2)) st2)) /\
  (forall (st1 : ServerState) (c r : pystr),
     handle_client_message st1 c (lit "CHANGE_VARIABLE_RESPONSE/" ++ r) = st1).
Proof.
  intros msg st'. split_and!.
  - intros c s Hin Hs. subst st'. cbn [handle_ui_command broadcast_to_ui clients].
    rewrite apply_variable_loop_clients, bool_decide_true, Hs by done.
    eexists. split; [reflexivity|]. simpl. apply lookup_insert_eq.
  - intros pre c post s -> Hs. subst st'. cbn [handle_ui_command].
    rewrite apply_variable_loop_app.
    destruct (clients (apply_variable_loop pre var val st) !! c) as [s0|] eqn:Hs0.
    2: { rewrite apply_variable_loop_clients, Hs in Hs0.
         by destruct (bool_decide (c ∈ pre)). }
    exists (store_session c (with_variable var val s0) (apply_variable_loop pre var val st)),
      (with_variable var val s0).
    split_and!.
    + simpl. apply lookup_insert_eq.
    + simpl. apply lookup_insert_eq.
    + cbn [apply_variable_loop]. by rewrite Hs0.
  - intros st1 c r. apply handle_change_variable_response.
Qed.

Lemma C1_witness :
  exists s', clients (handle_ui_command one_client_state
                (UiApplyVariable [lit "CLIENT_1"; lit "CLIENT_9"] (lit "BOT_ID") (lit "x7")))
               !! lit "CLIENT_1" = Some s' /\
             variables s' !! lit "BOT_ID" = Some (lit "x7").
Proof.
  destruct (C1_apply_variable_writes_before_ack one_client_state
              [lit "CLIENT_1"; lit "CLIENT_9"] (lit "BOT_ID") (lit "x7")) as (H & _).
  apply (H (lit "CLIENT_1") (new_session (lit "CLIENT_1") 0)).
  - set_solver.
  - vm_compute. reflexivity.
Defined.

(** A log-adding message appends exactly its line to the sender's log. *)
Lemma log_message_step st cid s m l :
  clients st !! cid = Some s -> log_message m l ->
  clients (handle_client_message st cid m) !! cid = Some (append_log l s).
Proof.
  intros Hs Hm.
  assert (E : handle_client_message st cid m =
              broadcast_to_ui (EvClientLog (client_id s) l)
                (store_session cid (append_log l s) st)).
  { destruct Hm as [->|[->|[(e & -> & ->)|(a & Ha & -> & ->)]]].
    - change (lit "LOG_CLIENT_EVENT/" ++ l) with (lit "LOG_CLIENT_EVENT" ++ SLASH :: l).
      rewrite (handle_with_payload st cid s) by (done || no_slash). cbv zeta.
      destruct (py_split SLASH l) as [|p ps] eqn:E;
        [by destruct (py_split_nonempty SLASH l)|].
      rewrite <- (py_join_split SLASH l), E. reflexivity.
    - change (lit "CLIENT_LOG_EVENT/" ++ l) with (lit "CLIENT_LOG_EVENT" ++ SLASH :: l).
      rewrite (handle_with_payload st cid s) by (done || no_slash). cbv zeta.
      destruct (py_split SLASH l) as [|p ps] eqn:E;
        [by destruct (py_split_nonempty SLASH l)|].
      rewrite <- (py_join_split SLASH l), E. reflexivity.
    - change (lit "REPORT_CLIENT_ERROR/" ++ e) with (lit "REPORT_CLIENT_ERROR" ++ SLASH :: e).
      rewrite (handle_with_payload st cid s) by (done || no_slash). cbv zeta.
      destruct (py_split SLASH e) as [|p ps] eqn:E;
        [by destruct (py_split_nonempty SLASH e)|].
      rewrite <- (py_join_split SLASH e), E. reflexivity.
    - change (lit "REPORT_CLIENT_FINISH/" ++ a) with (lit "REPORT_CLIENT_FINISH" ++ SLASH :: a).
      rewrite (handle_with_payload st cid s) by (done || no_slash). cbv zeta.
      rewrite py_split_no_sep by done. reflexivity. }
  rewrite E. simpl. apply lookup_insert_eq.
Qed.

(** C5 (amended): the session's stored [logs] list is unbounded: a run
    of log-adding messages (log events, error reports, finish reports)
    appends exactly their lines, in arrival order, to the stored list,
    nothing is evicted, and any other message keeps all earlier entries.
    The bound of 50 holds for the view [to_dict] gives to observers, which
    holds the last [min 50 n] of the [n] stored entries, in order. *)
Theorem C5_logs_unbounded_view_bounded (st : ServerState) (cid : pystr)
    (s : ClientSession) (msgs lines : list pystr) :
  clients st !! cid = Some s ->
  Forall2 log_message msgs lines ->
  (exists s',
     clients (handle_client_messages st cid msgs) !! cid = Some s' /\
     logs s' = logs s ++ lines /\
     length (v_logs (to_dict s')) = Nat.min 50 (length (logs s')) /\
     (exists dropped, logs s' = dropped ++ v_logs (to_dict s'))) /\
  (forall msgs' : list pystr, exists s' added,
     clients (handle_client_messages st cid msgs') !! cid = Some s' /\
     logs s' = logs s ++ added).
Proof.
  intros Hs Hl. split.
  - assert (Hlog : exists s', clients (handle_client_messages st cid msgs) !! cid = Some s' /\
                             logs s' = logs s ++ lines).
    { revert st s Hs. induction Hl as [|m l ms ls Hm Hms IH]; intros st s Hs; simpl.
      - exists s. by rewrite app_nil_r.
      - destruct (IH _ _ (log_message_step st cid s m l Hs Hm)) as (s' & H1 & H2).
        exists s'. split; [done|]. rewrite H2. simpl. by rewrite <- app_assoc. }
    destruct Hlog as (s' & H1 & H2). exists s'. split_and!; try done;
      apply (last_n_spec 50 (logs s')).
  - intros msgs'. by apply handle_client_messages_logs.
Qed.

Lemma C5_witness :
  exists s',
    clients (handle_client_messages one_client_state (lit "CLIENT_1")
               [lit "LOG_CLIENT_EVENT/" ++ lit "a";
                lit "REPORT_CLIENT_ERROR/" ++ lit "b/c";
                lit "REPORT_CLIENT_FINISH/" ++ lit "True"]) !! lit "CLIENT_1" = Some s' /\
    logs s' = [lit "a"; lit "ERROR: b/c"; lit "FINISHED: True"].
Proof.
  destruct (C5_logs_unbounded_view_bounded one_client_state (lit "CLIENT_1")
              (new_session (lit "CLIENT_1") 0)
              [lit "LOG_CLIENT_EVENT/" ++ lit "a";
               lit "REPORT_CLIENT_ERROR/" ++ lit "b/c";
               lit "REPORT_CLIENT_FINISH/" ++ lit "True"]
              [lit "a"; lit "ERROR: b/c"; lit "FINISHED: True"])
    as ((s' & H1 & H2 & _) & _).
  - vm_compute. reflexivity.
  - constructor; [left; reflexivity|].
    constructor; [right; right; left; eexists; split; reflexivity|].
    constructor; [|constructor].
    right; right; right. exists (lit "True"). split_and!; [no_slash|reflexivity|reflexivity].
  - exists s'. split; [done|]. rewrite H2. reflexivity.
Defined.
